(** * mistralai-edge: the retrying transport and the stream decoder of
      [src/client.js], embedded and verified.

    The client is a JavaScript class.  Its two pieces of logic are
    [_fetchWithRetry] (bounded retry with exponential backoff around the
    platform's [fetch]) and the line decoder inside [chatStream].  What the
    platform supplies ([fetch], [TextDecoder.decode], [JSON.parse],
    [JSON.stringify]) is taken as a section variable; everything written in
    [client.js] is a definition below. *)

From Stdlib Require Import ZArith List String Ascii Bool Lia QArith_base.
From Stdlib.Strings Require Import Byte.
From Equations Require Import Equations.
Import ListNotations.
Open Scope string_scope.
Open Scope list_scope.
Open Scope Z_scope.
#[local] Set Warnings "-register-all".

(** ** Values of the platform *)

(** What [JSON.parse] can return. *)
Inductive Json : Type :=
| JNull
| JBool (b : bool)
| JNum (q : Q)
| JStr (s : string)
| JArr (items : list Json)
| JObj (fields : list (string * Json)).

(** The values the client handles: [undefined], JSON values, a [Uint8Array],
    an async-iterable stream of chunks, and an object literal whose fields may
    be [undefined]. *)
Inductive JsValue : Type :=
| VUndefined
| VJson (j : Json)
| VBytes (b : list byte)
| VStream (chunks : list JsValue)
| VObject (fields : list (string * JsValue)).

Inductive JsError : Type :=
| SyntaxError (what : string)
| TypeError (what : string)
| FetchError (what : string).

(** A completion of a call: a value returned or an error thrown. *)
Inductive Completion (A : Type) : Type :=
| Return (a : A)
| Throw (e : JsError).
Arguments Return {A} a.
Arguments Throw {A} e.

(** A [Response] of the Fetch API: its status and its body, a byte stream
    delivered in chunks. *)
Record Response : Type := mkResponse {
  status : Z;
  body : list (list byte)
}.

(** [Response.ok] is the Fetch API's getter: the status is in 200..299. *)
Definition ok (response : Response) : bool :=
  (200 <=? status response) && (status response <=? 299).

(** The [options] argument of [fetch]. *)
Record RequestInit : Type := mkRequestInit {
  method : string;
  headers : list (string * string);
  payload : option string
}.

Inductive FetchResult : Type :=
| Resolved (response : Response)
| Rejected (error : JsError).

(** The observable history of one client, oldest event first: each call of
    [fetch] with its arguments, and each [setTimeout] with its duration in
    milliseconds. *)
Inductive Event : Type :=
| Fetched (url : string) (options : RequestInit)
| Waited (ms : Z).

Definition World : Type := list Event.

Definition is_fetch (e : Event) : bool :=
  match e with Fetched _ _ => true | Waited _ => false end.

(** How many times [fetch] was called. *)
Definition attempts (w : World) : nat := List.length (filter is_fetch w).

(** The durations waited, in order. *)
Fixpoint waits (w : World) : list Z :=
  match w with
  | [] => []
  | Waited ms :: w' => ms :: waits w'
  | Fetched _ _ :: w' => waits w'
  end.

(** ** Constants of [client.js] *)

Definition RETRY_STATUS_CODES : list Z := [429; 500; 502; 503; 504].
Definition ENDPOINT : string := "https://api.mistral.ai".

(** [Array.prototype.includes] on numbers. *)
Definition includes (l : list Z) (x : Z) : bool := existsb (Z.eqb x) l.

(** JavaScript's default parameter value: used when the argument is
    [undefined], here [None]. *)
Definition or_default {A : Type} (d : A) (arg : option A) : A :=
  match arg with Some a => a | None => d end.

(** A value together with the equation that names it, so that a branch on a
    test keeps the test's outcome as a fact. *)
Definition inspect {A : Type} (x : A) : {y : A | x = y} := exist _ x eq_refl.

(** ** The retrying transport *)

Section Transport.

(** The remote end: the outcome of the [n]-th call of [fetch], counted
    from 0. *)
Variable network : nat -> FetchResult.

Definition fetch (url : string) (options : RequestInit) (w : World)
  : FetchResult * World :=
  (network (attempts w), w ++ [Fetched url options]).

(** [_delay(ms)]: a promise resolved by [setTimeout(resolve, ms)]. *)
Definition _delay (ms : Z) (w : World) : World :=
  w ++ [Waited ms].

(** [_fetchWithRetry(url, options, retries, retryDelay)], the arguments
    given: [retries] a count and [retryDelay] a number of milliseconds, both
    integers.  The recursive calls are returned without [await], so the
    [catch] of the caller's frame never sees their rejection. *)
Equations? _fetchWithRetry (url : string) (options : RequestInit)
    (retries retryDelay : Z) (w : World)
  : Completion Response * World by wf (Z.to_nat retries) lt :=
  _fetchWithRetry url options retries retryDelay w
    with fetch url options w => {
    | (Resolved response, w1)
        with inspect (ok response
                      || negb (includes RETRY_STATUS_CODES (status response))
                      || (retries <=? 0)) => {
        | exist _ true _ := (Return response, w1);
        | exist _ false E :=
            _fetchWithRetry url options (retries - 1) (retryDelay * 2)
                            (_delay retryDelay w1) };
    | (Rejected error, w1) with inspect (retries <=? 0) => {
        | exist _ true _ := (Throw error, w1);
        | exist _ false E :=
            _fetchWithRetry url options (retries - 1) (retryDelay * 2)
                            (_delay retryDelay w1) } }.
Proof.
  - apply orb_false_elim in E as [_ E]. apply Z.leb_gt in E. lia.
  - apply Z.leb_gt in E. lia.
Qed.

(** The call with its default parameter values:
    [retries = 3, retryDelay = 500]. *)
Definition _fetchWithRetry_call (url : string) (options : RequestInit)
    (retries retryDelay : option Z) (w : World)
  : Completion Response * World :=
  _fetchWithRetry url options (or_default 3 retries)
                  (or_default 500 retryDelay) w.

End Transport.

(** ** Strings, as [client.js] uses them

    A JavaScript string is modelled by a [string] of code units below 256,
    which covers the wire format (ASCII) and keeps string literals
    readable. *)

Definition LF : ascii := "010"%char.
Definition dquote : ascii := "034"%char.
Definition backslash : ascii := "092"%char.
Definition apostrophe : ascii := "039"%char.

(** JSON text is written below with apostrophes where the text has double
    quotes: [dq] puts the double quotes back. *)
Fixpoint dq (s : string) : string :=
  match s with
  | EmptyString => EmptyString
  | String c s' => String (if Ascii.eqb c apostrophe then dquote else c) (dq s')
  end.

(** The text made of the given lines, each ended by a newline. *)
Fixpoint unlines (ls : list string) : string :=
  match ls with
  | [] => EmptyString
  | l :: ls' => (l ++ String LF (unlines ls'))%string
  end.

(** [s.split('\n')]: the pieces between newlines; never empty. *)
Fixpoint split (s : string) : list string :=
  match s with
  | EmptyString => [EmptyString]
  | String c s' =>
      if Ascii.eqb c LF then EmptyString :: split s'
      else match split s' with
           | l :: ls => String c l :: ls
           | [] => [String c EmptyString]
           end
  end.

(** [s.startsWith(p)]. *)
Definition startsWith (s p : string) : bool := String.prefix p s.

(** [s.substring(start)]: what follows the first [start] code units, the
    empty string when there are fewer. *)
Fixpoint substring (start : nat) (s : string) : string :=
  match start, s with
  | O, _ => s
  | S n, EmptyString => EmptyString
  | S n, String _ s' => substring n s'
  end.

(** White space and line terminators of ECMAScript below 256: TAB, LF, VT,
    FF, CR, SP and NBSP. *)
Definition isWhiteSpace (c : ascii) : bool :=
  let n := N_of_ascii c in
  ((9 <=? n) && (n <=? 13) || (n =? 32) || (n =? 160))%N.

Fixpoint trimStart (s : string) : string :=
  match s with
  | EmptyString => EmptyString
  | String c s' => if isWhiteSpace c then trimStart s' else s
  end.

Fixpoint trimEnd (s : string) : string :=
  match s with
  | EmptyString => EmptyString
  | String c s' =>
      match trimEnd s' with
      | EmptyString => if isWhiteSpace c then EmptyString
                       else String c EmptyString
      | t => String c t
      end
  end.

(** [s.trim()]. *)
Definition trim (s : string) : string := trimStart (trimEnd s).

(** A template literal prints a missing value as [undefined]. *)
Definition template (v : option string) : string :=
  match v with Some s => s | None => "undefined" end.

(** ** Headers, as the Fetch API builds them

    [new Headers(init)] takes the entries of [init] in order; it removes
    the HTTP white space (TAB, LF, CR, SP) around each value and throws a
    [TypeError] when a name is not a token or a value still holds a NUL, an
    LF or a CR.  (It also throws on a code unit above 255, which the strings
    of this model do not have.) *)

Definition isHTTPWhitespace (c : ascii) : bool :=
  let n := N_of_ascii c in
  ((n =? 9) || (n =? 10) || (n =? 13) || (n =? 32))%N.

Fixpoint stripStart (s : string) : string :=
  match s with
  | EmptyString => EmptyString
  | String c s' => if isHTTPWhitespace c then stripStart s' else s
  end.

Fixpoint stripEnd (s : string) : string :=
  match s with
  | EmptyString => EmptyString
  | String c s' =>
      match stripEnd s' with
      | EmptyString => if isHTTPWhitespace c then EmptyString
                       else String c EmptyString
      | t => String c t
      end
  end.

(** The value of a header, normalized. *)
Definition normalize (value : string) : string := stripStart (stripEnd value).

Fixpoint allChars (f : ascii -> bool) (s : string) : bool :=
  match s with
  | EmptyString => true
  | String c s' => f c && allChars f s'
  end.

(** The characters of an HTTP token: letters, digits and
    [! # $ % & ' * + - . ^ _ ` | ~]. *)
Definition isTokenChar (c : ascii) : bool :=
  let n := N_of_ascii c in
  ((48 <=? n) && (n <=? 57) || (65 <=? n) && (n <=? 90)
   || (97 <=? n) && (n <=? 122)
   || (n =? 33) || (35 <=? n) && (n <=? 39) || (n =? 42) || (n =? 43)
   || (n =? 45) || (n =? 46) || (94 <=? n) && (n <=? 96)
   || (n =? 124) || (n =? 126))%N.

Definition validHeaderName (name : string) : bool :=
  negb (String.eqb name EmptyString) && allChars isTokenChar name.

Definition isValueChar (c : ascii) : bool :=
  let n := N_of_ascii c in
  negb ((n =? 0) || (n =? 10) || (n =? 13))%N.

Definition validHeaderValue (value : string) : bool :=
  allChars isValueChar value.

(** [new Headers(init)]: the entries with their values normalized, or the
    [TypeError] of the first entry that is not valid. *)
Fixpoint Headers_new (init : list (string * string))
  : Completion (list (string * string)) :=
  match init with
  | [] => Return []
  | (name, value) :: rest =>
      if validHeaderName name && validHeaderValue (normalize value) then
        match Headers_new rest with
        | Return hs => Return ((name, normalize value) :: hs)
        | Throw e => Throw e
        end
      else Throw (TypeError "Headers: invalid name or value")
  end.

(** ** Generators

    What an (async) generator shows its consumer: the values yielded, in
    order, and how it ended.  A [Throw] ends the sequence after the values
    already yielded. *)

Definition Gen (A : Type) : Type := list Json * Completion A.

Definition gret {A : Type} (a : A) : Gen A := ([], Return a).
Definition gthrow {A : Type} (e : JsError) : Gen A := ([], Throw e).
Definition yield (v : Json) : Gen unit := ([v], Return tt).

Definition gbind {A B : Type} (m : Gen A) (k : A -> Gen B) : Gen B :=
  match m with
  | (evs, Throw e) => (evs, Throw e)
  | (evs, Return a) => let (evs', r) := k a in (evs ++ evs', r)
  end.

Notation "x <- m ;; k" := (gbind m (fun x => k))
  (at level 61, m at next level, right associativity).
Notation "m ;; k" := (gbind m (fun _ => k))
  (at level 61, right associativity).

(** [for (const x of xs) body]. *)
Fixpoint for_of {A : Type} (xs : list A) (body : A -> Gen unit) : Gen unit :=
  match xs with
  | [] => gret tt
  | x :: xs' => body x ;; for_of xs' body
  end.

(** Lift a completion into a generator that yields nothing. *)
Definition await {A : Type} (c : Completion A) : Gen A := ([], c).

(** What [for await (const x of v)] iterates over: a stream gives its
    chunks, an array its items, a string its characters, a [Uint8Array] its
    bytes as numbers; [undefined], [null], booleans, numbers and plain
    objects are not iterable. *)
Definition iterate (v : JsValue) : Completion (list JsValue) :=
  match v with
  | VStream chunks => Return chunks
  | VJson (JArr items) => Return (map VJson items)
  | VJson (JStr s) =>
      Return (map (fun c => VJson (JStr (String c EmptyString)))
                  (list_ascii_of_string s))
  | VBytes b =>
      Return (map (fun x => VJson (JNum (inject_Z (Z.of_N (Byte.to_N x))))) b)
  | _ => Throw (TypeError "not iterable")
  end.

(** [a ?? b]. *)
Definition nullish (a b : JsValue) : JsValue :=
  match a with
  | VUndefined | VJson JNull => b
  | _ => a
  end.
Infix "??" := nullish (at level 40, left associativity).

(** ** The client *)

Record MistralClient : Type := mkClient {
  endpoint : string;
  apiKey : option string
}.

(** The destructured argument of [chat] and [chatStream]; a field that is
    not given is [undefined]. *)
Record ChatParams : Type := mkChatParams {
  model : JsValue;
  messages : JsValue;
  temperature : JsValue;
  maxTokens : JsValue;
  topP : JsValue;
  randomSeed : JsValue;
  safeMode : JsValue
}.

(** [constructor(apiKey = process.env.MISTRAL_API_KEY, endpoint = ENDPOINT)];
    [env] is the environment variable. *)
Definition constructor (env : option string) (apiKey endpoint : option string)
  : MistralClient :=
  {| endpoint := or_default ENDPOINT endpoint;
     apiKey := match apiKey with Some k => Some k | None => env end |}.

Definition _makeChatCompletionRequest
    (model messages temperature maxTokens topP randomSeed stream safeMode
     : JsValue) : JsValue :=
  VObject
    [ ("model", model);
      ("messages", messages);
      ("temperature", temperature ?? VUndefined);
      ("max_tokens", maxTokens ?? VUndefined);
      ("top_p", topP ?? VUndefined);
      ("random_seed", randomSeed ?? VUndefined);
      ("stream", stream ?? VUndefined);
      ("safe_prompt", safeMode ?? VUndefined) ].

(** Reading a property of an object literal. *)
Fixpoint lookup (key : string) (fields : list (string * JsValue)) : JsValue :=
  match fields with
  | [] => VUndefined
  | (k, v) :: rest => if String.eqb k key then v else lookup key rest
  end.

Definition get (key : string) (o : JsValue) : JsValue :=
  match o with
  | VObject fields => lookup key fields
  | _ => VUndefined
  end.

Section Client.

Variable network : nat -> FetchResult.
(** [TextDecoder.prototype.decode] on bytes. *)
Variable TextDecoder_decode : list byte -> string.
(** [JSON.parse]; it throws on what is not JSON. *)
Variable JSON_parse : string -> Completion Json.
(** [JSON.stringify]; [undefined] has no serialisation. *)
Variable JSON_stringify : JsValue -> option string.

Variable this : MistralClient.

(** [response.json()]: the whole body, decoded and parsed. *)
Definition json (response : Response) : Completion Json :=
  JSON_parse (TextDecoder_decode (List.concat (body response))).

(** [this.textDecoder.decode(chunk)]: the argument is a buffer, or absent. *)
Definition textDecoder_decode (chunk : JsValue) : Completion string :=
  match chunk with
  | VBytes b => Return (TextDecoder_decode b)
  | VUndefined => Return EmptyString
  | _ => Throw (TypeError "decode: not a BufferSource")
  end.

(** [_request(method, path, request, retries)].  [new Headers] is
    evaluated before anything is sent: when it throws, the call ends with
    that error and [fetch] is never called. *)
Definition _request (method path : string) (request : JsValue)
    (retries : option Z) (w : World) : Completion Json * World :=
  let url := (endpoint this ++ "/" ++ path)%string in
  match Headers_new
          [ ("Authorization", ("Bearer " ++ template (apiKey this))%string);
            ("Content-Type", "application/json") ] with
  | Throw e => (Throw e, w)
  | Return headers =>
      let options :=
        {| method := method; headers := headers;
           payload := JSON_stringify request |} in
      match _fetchWithRetry_call network url options
                                 (Some (or_default 3 retries)) None w with
      | (Return response, w') => (json response, w')
      | (Throw e, w') => (Throw e, w')
      end
  end.

Definition listModels (w : World) : Completion Json * World :=
  _request "get" "v1/models" VUndefined None w.

(** The request object [chat] builds. *)
Definition chat_request (p : ChatParams) : JsValue :=
  _makeChatCompletionRequest (model p) (messages p) (temperature p)
    (maxTokens p) (topP p) (randomSeed p) (VJson (JBool false))
    (safeMode p).

Definition chat (p : ChatParams) (w : World) : Completion Json * World :=
  _request "post" "v1/chat/completions" (chat_request p) None w.

(** The request object [chatStream] builds. *)
Definition chatStream_request (p : ChatParams) : JsValue :=
  _makeChatCompletionRequest (model p) (messages p) (temperature p)
    (maxTokens p) (topP p) (randomSeed p) (VJson (JBool true))
    (safeMode p).

(** The body of [for (const chunkLine of chunkLines)]. *)
Definition chunkLine_body (chunkLine : string) : Gen unit :=
  if startsWith chunkLine "data:" then
    let chunkData := trim (substring 6 chunkLine) in
    if negb (String.eqb chunkData "[DONE]") then
      v <- await (JSON_parse chunkData) ;; yield v
    else gret tt
  else gret tt.

(** The body of [for await (const chunk of response)]. *)
Definition chunk_body (chunk : JsValue) : Gen unit :=
  chunkString <- await (textDecoder_decode chunk) ;;
  let chunkLines := split chunkString in
  for_of chunkLines chunkLine_body.

(** The loop of [chatStream] over whatever [response] is. *)
Definition chatStream_loop (response : JsValue) : Gen unit :=
  chunks <- await (iterate response) ;;
  for_of chunks chunk_body.

(** [chatStream]: the request, then the loop over what [_request]
    returned. *)
Definition chatStream (p : ChatParams) (w : World) : Gen unit * World :=
  let (response, w') :=
    _request "post" "v1/chat/completions" (chatStream_request p) None w in
  (response <- await response ;; chatStream_loop (VJson response), w').

Definition embeddings (model input : JsValue) (w : World)
  : Completion Json * World :=
  _request "post" "v1/embeddings"
           (VObject [("model", model); ("input", input)]) None w.

(** The stream decoder on a byte stream delivered in [chunks]. *)
Definition decodeStream (chunks : list (list byte)) : Gen unit :=
  chatStream_loop (VStream (map VBytes chunks)).

End Client.

(** ** A reference platform

    Concrete stand-ins for the platform functions, used to evaluate the
    client on concrete inputs: a decoder for ASCII bytes (where UTF-8 is the
    identity) and a parser for the JSON fragment made of objects, arrays,
    strings without escapes, integers, [true], [false] and [null]. *)

Module Reference.

Definition decode (b : list byte) : string := string_of_list_byte b.

Definition encode (s : string) : list byte := list_byte_of_string s.

Definition is_json_ws (c : ascii) : bool :=
  let n := N_of_ascii c in ((n =? 32) || (n =? 9) || (n =? 10) || (n =? 13))%N.

Fixpoint skip_ws (s : string) : string :=
  match s with
  | String c s' => if is_json_ws c then skip_ws s' else s
  | EmptyString => EmptyString
  end.

Definition digit (c : ascii) : option Z :=
  let n := N_of_ascii c in
  if ((48 <=? n) && (n <=? 57))%N then Some (Z.of_N n - 48) else None.

Fixpoint digits (acc : Z) (s : string) : Z * string :=
  match s with
  | String c s' =>
      match digit c with
      | Some d => digits (10 * acc + d) s'
      | None => (acc, s)
      end
  | EmptyString => (acc, s)
  end.

(** After an opening quote: the characters up to the closing quote. *)
Fixpoint chars (s : string) : option (string * string) :=
  match s with
  | EmptyString => None
  | String c s' =>
      if Ascii.eqb c dquote then Some (EmptyString, s')
      else if Ascii.eqb c backslash then None
      else match chars s' with
           | Some (t, r) => Some (String c t, r)
           | None => None
           end
  end.

Definition number (s : string) : option (Json * string) :=
  match s with
  | String c s' =>
      match digit c with
      | Some d => let (n, r) := digits d s' in Some (JNum (inject_Z n), r)
      | None => None
      end
  | EmptyString => None
  end.

Fixpoint value (fuel : nat) (s : string) : option (Json * string) :=
  match fuel with
  | O => None
  | S fuel' =>
      match skip_ws s with
      | EmptyString => None
      | String c r as t =>
          if startsWith t "null" then Some (JNull, substring 4 t)
          else if startsWith t "true" then Some (JBool true, substring 4 t)
          else if startsWith t "false" then Some (JBool false, substring 5 t)
          else if Ascii.eqb c dquote then
            match chars r with
            | Some (str, r') => Some (JStr str, r')
            | None => None
            end
          else if Ascii.eqb c "["%char then
            match skip_ws r with
            | String c' r' =>
                if Ascii.eqb c' "]"%char then Some (JArr [], r')
                else match elements fuel' r with
                     | Some (items, r'') => Some (JArr items, r'')
                     | None => None
                     end
            | EmptyString => None
            end
          else if Ascii.eqb c "{"%char then
            match skip_ws r with
            | String c' r' =>
                if Ascii.eqb c' "}"%char then Some (JObj [], r')
                else match members fuel' r with
                     | Some (fields, r'') => Some (JObj fields, r'')
                     | None => None
                     end
            | EmptyString => None
            end
          else if Ascii.eqb c "-"%char then
            match number r with
            | Some (JNum q, r') => Some (JNum (Qopp q), r')
            | _ => None
            end
          else number t
      end
  end
with elements (fuel : nat) (s : string) : option (list Json * string) :=
  match fuel with
  | O => None
  | S fuel' =>
      match value fuel' s with
      | None => None
      | Some (v, r) =>
          match skip_ws r with
          | String c r' =>
              if Ascii.eqb c "]"%char then Some ([v], r')
              else if Ascii.eqb c ","%char then
                match elements fuel' r' with
                | Some (vs, r'') => Some (v :: vs, r'')
                | None => None
                end
              else None
          | EmptyString => None
          end
      end
  end
with members (fuel : nat) (s : string)
  : option (list (string * Json) * string) :=
  match fuel with
  | O => None
  | S fuel' =>
      match skip_ws s with
      | String q r =>
          if Ascii.eqb q dquote then
            match chars r with
            | None => None
            | Some (key, r1) =>
                match skip_ws r1 with
                | String colon r2 =>
                    if Ascii.eqb colon ":"%char then
                      match value fuel' r2 with
                      | None => None
                      | Some (v, r3) =>
                          match skip_ws r3 with
                          | String c r4 =>
                              if Ascii.eqb c "}"%char
                              then Some ([(key, v)], r4)
                              else if Ascii.eqb c ","%char then
                                match members fuel' r4 with
                                | Some (fs, r5) => Some ((key, v) :: fs, r5)
                                | None => None
                                end
                              else None
                          | EmptyString => None
                          end
                      end
                    else None
                | EmptyString => None
                end
            end
          else None
      | EmptyString => None
      end
  end.

Definition JSON_parse (text : string) : Completion Json :=
  match value (2 * String.length text + 2) text with
  | Some (v, r) =>
      match skip_ws r with
      | EmptyString => Return v
      | _ => Throw (SyntaxError text)
      end
  | None => Throw (SyntaxError text)
  end.

(** No request body is inspected by the theorems that use this platform. *)
Definition JSON_stringify (v : JsValue) : option string :=
  match v with VUndefined => None | _ => Some "{}" end.

End Reference.

(** * Vocabulary of the statements *)

(** The event trace of a call that retries after each of the given waits:
    an attempt, then for each wait the wait and one more attempt. *)
Fixpoint schedule (url : string) (options : RequestInit) (delays : list Z)
  : list Event :=
  match delays with
  | [] => [Fetched url options]
  | d :: ds => Fetched url options :: Waited d :: schedule url options ds
  end.

(** The first [n] terms of the geometric sequence [d, d*2, d*2^2, ...]. *)
Definition backoff (d : Z) (n : nat) : list Z :=
  map (fun k => d * 2 ^ Z.of_nat k) (seq 0 n).

(** An attempt that the transport answers by another attempt, retries
    permitting. *)
Definition retriable (o : FetchResult) : Prop :=
  match o with
  | Rejected _ => True
  | Resolved response => In (status response) RETRY_STATUS_CODES
  end.

(** Closes [lhs = if c then a else b] when [E] decides [c] and [lhs]
    computes to the branch taken. *)
Ltac take_branch E :=
  match goal with
  | |- _ = (if _ then ?a else ?b) =>
      first [ transitivity a; [reflexivity | rewrite E; reflexivity]
            | transitivity b; [reflexivity | rewrite E; reflexivity] ]
  end.

(** A chat parameter the caller provided: neither [undefined] nor [null]. *)
Definition provided (v : JsValue) : Prop :=
  v <> VUndefined /\ v <> VJson JNull.

(** The requests handed to [fetch], in order. *)
Fixpoint requests (w : World) : list (string * RequestInit) :=
  match w with
  | [] => []
  | Fetched url options :: w' => (url, options) :: requests w'
  | Waited _ :: w' => requests w'
  end.

(** The text lines of a byte stream, chunk after chunk, as the decoder's two
    loops visit them. *)
Definition streamLines (decode : list byte -> string)
    (chunks : list (list byte)) : list string :=
  flat_map (fun chunk => split (decode chunk)) chunks.

(** The decoder's inner loop over a list of lines. *)
Definition decodeLines (parse : string -> Completion Json)
    (chunkLines : list string) : Gen unit :=
  for_of chunkLines (chunkLine_body parse).

(** The payload [chatStream] extracts from a line. *)
Definition chunkData (chunkLine : string) : string :=
  trim (substring 6 chunkLine).

(** The payload of a line as the specification words it: what follows the
    five characters of the prefix [data:], with the surrounding white space
    removed.  ([chunkData] above is what the code extracts.) *)
Definition payload_after_prefix (chunkLine : string) : string :=
  trim (substring 5 chunkLine).

(** The prefix is followed by white space or by nothing: the lines of the
    wire format [data: <json-or-sentinel>]. *)
Definition spaceAfterPrefix (chunkLine : string) : bool :=
  match substring 5 chunkLine with
  | EmptyString => true
  | String c _ => isWhiteSpace c
  end.

(** The wire text of the scenario: two events and the sentinel. *)
Definition scenario : string :=
  unlines [ dq "data: {'a':1}"; EmptyString;
            dq "data: {'a':2}"; EmptyString;
            "data: [DONE]" ].

(** ** Concrete inputs of the examples *)

Definition example_options : RequestInit := mkRequestInit "post" [] None.

(** A remote end that always answers 404. *)
Definition always_404 : nat -> FetchResult :=
  fun _ => Resolved (mkResponse 404 []).

(** A remote end whose first attempt is rejected and that answers 503 from
    then on. *)
Definition always_failing : nat -> FetchResult :=
  fun n =>
    match n with
    | O => Rejected (FetchError "connection refused")
    | _ => Resolved (mkResponse 503 [])
    end.

(** A remote end that answers 503 twice and 200 from then on. *)
Definition two_503_then_200 : nat -> FetchResult :=
  fun n =>
    match n with
    | O | S O => Resolved (mkResponse 503 [])
    | _ => Resolved (mkResponse 200 [])
    end.

(** A response with the scenario text as its body. *)
Definition scenario_response : Response :=
  mkResponse 200 [Reference.encode scenario].

Definition example_client : MistralClient :=
  constructor None (Some "key") None.

Definition example_params : ChatParams :=
  mkChatParams (VJson (JStr "mistral-tiny"))
               (VJson (JArr [JObj [("role", JStr "user")]]))
               (VJson (JNum (Qmake 1 2))) (VJson (JNum (inject_Z 100)))
               (VJson (JNum (Qmake 9 10))) (VJson (JNum (inject_Z 42)))
               (VJson (JBool true)).

(** One [data:] line, whole, and cut after its ninth byte. *)
Definition one_frame : list byte :=
  Reference.encode (unlines [dq "data: {'a':1}"]).
Definition one_frame_head : list byte := firstn 9 one_frame.
Definition one_frame_tail : list byte := skipn 9 one_frame.

(** A second line, and a stream of two chunks with a comment line and a
    malformed frame. *)
Definition another_frame : list byte :=
  Reference.encode (unlines [dq "data: {'a':2}"]).
Definition broken_stream : list (list byte) :=
  [ Reference.encode (unlines [dq "data: {'a':1}"; ": keep-alive"]);
    Reference.encode (unlines ["data: {oops"; dq "data: {'a':2}"]) ].

(** The sentinel line, whole, and cut after its eighth byte. *)
Definition done_frame : list byte :=
  Reference.encode (unlines ["data: [DONE]"]).
Definition done_frame_head : list byte := firstn 8 done_frame.
Definition done_frame_tail : list byte := skipn 8 done_frame.

(** A comment line that mentions [data:], whole, and cut before the
    mention. *)
Definition note_line : list byte :=
  Reference.encode (unlines [": note data: oops"]).
Definition note_line_head : list byte := firstn 7 note_line.
Definition note_line_tail : list byte := skipn 7 note_line.

(** ** Vocabulary of the further properties *)

(** What an attempt's outcome becomes when it ends the call. *)
Definition completion (o : FetchResult) : Completion Response :=
  match o with
  | Resolved response => Return response
  | Rejected error => Throw error
  end.

(** The sum of a list of durations. *)
Definition total (l : list Z) : Z := fold_right Z.add 0 l.

(** The url and the options [_request] hands to the transport. *)
Definition request_url (this : MistralClient) (path : string) : string :=
  (endpoint this ++ "/" ++ path)%string.

(** The object [_request] gives to [new Headers]. *)
Definition request_headers (this : MistralClient) : list (string * string) :=
  [ ("Authorization", ("Bearer " ++ template (apiKey this))%string);
    ("Content-Type", "application/json") ].

Definition request_options (stringify : JsValue -> option string)
    (headers : list (string * string)) (method : string) (request : JsValue)
  : RequestInit :=
  {| method := method;
     headers := headers;
     payload := stringify request |}.

(** What [_request] makes of the transport's completion. *)
Definition parsed (decode : list byte -> string)
    (parse : string -> Completion Json) (c : Completion Response)
  : Completion Json :=
  match c with
  | Return response => json decode parse response
  | Throw e => Throw e
  end.





(** The last line of a text and the first line of a text: the two pieces
    that a cut between two chunks separates. *)
Definition lastLine (t : string) : string := last (split t) EmptyString.
Definition firstLine (t : string) : string := hd EmptyString (split t).

Definition CR : ascii := "013"%char.

(** A run of the transport under [_request]'s defaults: from [w] to [w'] by
    one attempt and [n <= 3] retries of the same request, the waits starting
    at 500 ms. *)
Definition default_run (url : string) (options : RequestInit)
    (w w' : World) : Prop :=
  exists n : nat,
    (n <= 3)%nat /\
    w' = w ++ schedule url options (backoff 500 n) /\
    attempts w' = (attempts w + n + 1)%nat /\
    total (waits w') = total (waits w) + 500 * (2 ^ Z.of_nat n - 1).

(** What one operation of a client does to the history: nothing when
    [new Headers] refuses the headers, and otherwise a run under the
    defaults with the headers built. *)
Definition client_run (stringify : JsValue -> option string)
    (this : MistralClient) (url method : string) (request : JsValue)
    (w w' : World) : Prop :=
  match Headers_new (request_headers this) with
  | Throw _ => w' = w
  | Return hs =>
      default_run url (request_options stringify hs method request) w w'
  end.

(** ** Concrete inputs of the further examples *)

(** A client whose key holds a newline between two letters. *)
Definition client_with_bad_key : MistralClient :=
  constructor None (Some ("a" ++ String LF "b")%string) None.

(** An application-level error with a JSON body. *)
Definition not_found : Response :=
  mkResponse 404 [Reference.encode (dq "{'message':'no such model'}")].

(** A line cut just before its newline. *)
Definition frame_without_newline : list byte :=
  Reference.encode (dq "data: {'a':1}").
Definition newline_then_done : list byte :=
  Reference.encode (String LF (unlines ["data: [DONE]"])).

(** A comment line cut in the middle. *)
Definition comment_head : list byte :=
  Reference.encode (unlines [dq "data: {'a':1}"] ++ ": keep")%string.
Definition comment_tail : list byte :=
  Reference.encode (unlines ["-alive"; dq "data: {'a':2}"]).

(** * Properties of the retrying transport *)

Section TransportFacts.

Variable network : nat -> FetchResult.
Variable url : string.
Variable options : RequestInit.

Lemma attempts_app (w v : World) :
  attempts (w ++ v) = (attempts w + attempts v)%nat.
Proof.
  unfold attempts. rewrite filter_app, length_app. reflexivity.
Qed.

Lemma waits_app (w v : World) : waits (w ++ v) = waits w ++ waits v.
Proof.
  induction w as [|[u o|ms] w IH]; simpl; rewrite ?IH; reflexivity.
Qed.

Lemma attempts_schedule (ds : list Z) :
  attempts (schedule url options ds) = S (List.length ds).
Proof.
  induction ds as [|d ds IH]; [reflexivity|].
  change (attempts (schedule url options (d :: ds)))
    with (S (attempts (schedule url options ds))).
  rewrite IH. reflexivity.
Qed.

Lemma waits_schedule (ds : list Z) : waits (schedule url options ds) = ds.
Proof.
  induction ds as [|d ds IH]; simpl; rewrite ?IH; reflexivity.
Qed.

Lemma backoff_succ (d : Z) (n : nat) :
  backoff d (S n) = d :: backoff (d * 2) n.
Proof.
  unfold backoff. simpl. rewrite <- seq_shift, map_map. f_equal.
  - lia.
  - apply map_ext. intro k. rewrite Nat2Z.inj_succ, Z.pow_succ_r by lia. lia.
Qed.

Lemma includes_In (l : list Z) (x : Z) : includes l x = true <-> In x l.
Proof.
  unfold includes. rewrite existsb_exists. split.
  - intros [y [Hy E]]. apply Z.eqb_eq in E. subst. exact Hy.
  - intro H. exists x. split; [exact H | apply Z.eqb_refl].
Qed.

(** A status of the retry set is not a success status. *)
Lemma retry_status_not_ok (response : Response) :
  In (status response) RETRY_STATUS_CODES -> ok response = false.
Proof.
  unfold ok, RETRY_STATUS_CODES. simpl.
  intros [H|[H|[H|[H|[H|[]]]]]]; rewrite <- H; reflexivity.
Qed.

(** One step of [_fetchWithRetry], as the source reads. *)
Lemma fetchWithRetry_step (retries retryDelay : Z) (w : World) :
  _fetchWithRetry network url options retries retryDelay w =
  let w1 := w ++ [Fetched url options] in
  match network (attempts w) with
  | Resolved response =>
      if ok response
         || negb (includes RETRY_STATUS_CODES (status response))
         || (retries <=? 0)
      then (Return response, w1)
      else _fetchWithRetry network url options (retries - 1)
                           (retryDelay * 2) (w1 ++ [Waited retryDelay])
  | Rejected error =>
      if retries <=? 0 then (Throw error, w1)
      else _fetchWithRetry network url options (retries - 1)
                           (retryDelay * 2) (w1 ++ [Waited retryDelay])
  end.
Proof.
  cbv zeta.
  set (again := _fetchWithRetry network url options (retries - 1) _ _).
  simp _fetchWithRetry. unfold fetch, _delay in *.
  destruct (network (attempts w)) as [response|error]; simp _fetchWithRetry.
  - destruct (inspect (ok response
                       || negb (includes RETRY_STATUS_CODES (status response))
                       || (retries <=? 0))) as [[|] E];
      take_branch E.
  - destruct (inspect (retries <=? 0)) as [[|] E]; take_branch E.
Qed.

End TransportFacts.

(** C5.  A response whose status is outside the retry set ends the call at
    once, whatever [retries] is: that one attempt is the only event added to
    the history (so no wait), and the response itself is returned. *)
Theorem fetchWithRetry_terminal_status
    (network : nat -> FetchResult) (url : string) (options : RequestInit)
    (retries retryDelay : Z) (w : World) (response : Response) :
  network (attempts w) = Resolved response ->
  ~ In (status response) RETRY_STATUS_CODES ->
  fst (_fetchWithRetry network url options retries retryDelay w) =
    Return response /\
  snd (_fetchWithRetry network url options retries retryDelay w) =
    w ++ [Fetched url options] /\
  attempts (snd (_fetchWithRetry network url options retries retryDelay w)) =
    S (attempts w) /\
  waits (snd (_fetchWithRetry network url options retries retryDelay w)) =
    waits w.
Proof.
  intros Hnet Hout.
  rewrite fetchWithRetry_step, Hnet. cbv zeta.
  assert (E : includes RETRY_STATUS_CODES (status response) = false).
  { destruct (includes RETRY_STATUS_CODES (status response)) eqn:E;
      [apply includes_In in E; contradiction | reflexivity]. }
  rewrite E. cbn [negb]. rewrite orb_true_r. cbn [orb fst snd].
  repeat split.
  - rewrite attempts_app. cbn. lia.
  - rewrite waits_app. cbn. apply app_nil_r.
Qed.

Lemma fetchWithRetry_terminal_status_witness :
  fst (_fetchWithRetry always_404 "u" example_options 3 500 []) =
    Return (mkResponse 404 []) /\
  snd (_fetchWithRetry always_404 "u" example_options 3 500 []) =
    [] ++ [Fetched "u" example_options] /\
  attempts (snd (_fetchWithRetry always_404 "u" example_options 3 500 [])) =
    S (attempts []) /\
  waits (snd (_fetchWithRetry always_404 "u" example_options 3 500 [])) =
    waits [].
Proof.
  apply (fetchWithRetry_terminal_status
           always_404 "u" example_options 3 500 [] (mkResponse 404 [])).
  - reflexivity.
  - simpl. lia.
Defined.

(** The scenario of the specification: 503 on the first two attempts, 200
    on the third, 3 retries allowed and a first delay of 100 ms. *)
Example two_failures_then_success :
  _fetchWithRetry two_503_then_200 "u" example_options 3 100 [] =
  (Return (mkResponse 200 []),
   [ Fetched "u" example_options; Waited 100;
     Fetched "u" example_options; Waited 200;
     Fetched "u" example_options ]).
Proof. reflexivity. Qed.

(** With every attempt failing retriably, the history grows by exactly the
    schedule of [N] geometric waits. *)
Lemma fetchWithRetry_trace_when_failing
    (network : nat -> FetchResult) (url : string) (options : RequestInit)
    (N : nat) :
  forall (initialDelay : Z) (w : World),
    (forall i, (attempts w <= i <= attempts w + N)%nat ->
               retriable (network i)) ->
    snd (_fetchWithRetry network url options (Z.of_nat N) initialDelay w) =
    w ++ schedule url options (backoff initialDelay N).
Proof.
  induction N as [|N IH]; intros d w Hfail; rewrite fetchWithRetry_step;
    cbv zeta.
  - change (Z.of_nat 0 <=? 0) with true.
    destruct (network (attempts w)); rewrite ?orb_true_r; reflexivity.
  - assert (Hgt : (Z.of_nat (S N) <=? 0) = false) by (apply Z.leb_gt; lia).
    assert (Hrec :
      snd (_fetchWithRetry network url options (Z.of_nat (S N) - 1) (d * 2)
             ((w ++ [Fetched url options]) ++ [Waited d])) =
      w ++ schedule url options (backoff d (S N))).
    { replace (Z.of_nat (S N) - 1) with (Z.of_nat N) by lia.
      rewrite IH.
      - rewrite backoff_succ. cbn [schedule].
        rewrite <- !app_assoc. reflexivity.
      - intros i Hi. apply Hfail.
        rewrite !attempts_app in Hi. cbn in Hi. lia. }
    rewrite Hgt.
    pose proof (Hfail (attempts w) ltac:(lia)) as Hnow.
    destruct (network (attempts w)) as [response|error]; [|exact Hrec].
    change (In (status response) RETRY_STATUS_CODES) in Hnow.
    rewrite (retry_status_not_ok response Hnow).
    apply includes_In in Hnow. rewrite Hnow. exact Hrec.
Qed.

(** C1.  With [retries = N] and every attempt failing retriably (a rejected
    [fetch], or a response whose status is in the retry set), the transport
    makes exactly [N + 1] attempts, and the [N] waits, one between each two
    consecutive attempts, are [initialDelay * 2 ^ k] for [k = 0 .. N - 1];
    the multiplier 2 is the constant of the source. *)
Theorem fetchWithRetry_attempts_and_backoff
    (network : nat -> FetchResult) (url : string) (options : RequestInit)
    (N : nat) (initialDelay : Z) (w : World) :
  (forall i, (attempts w <= i <= attempts w + N)%nat ->
             retriable (network i)) ->
  let w' :=
    snd (_fetchWithRetry network url options (Z.of_nat N) initialDelay w) in
  w' = w ++ schedule url options (backoff initialDelay N) /\
  attempts w' = (attempts w + (N + 1))%nat /\
  waits w' = waits w ++ backoff initialDelay N /\
  List.length (backoff initialDelay N) = N /\
  forall k, (k < N)%nat ->
    nth_error (waits w') (List.length (waits w) + k) =
    Some (initialDelay * 2 ^ Z.of_nat k).
Proof.
  intros Hfail w'.
  assert (Hw : w' = w ++ schedule url options (backoff initialDelay N))
    by (apply fetchWithRetry_trace_when_failing; exact Hfail).
  assert (Hlen : List.length (backoff initialDelay N) = N)
    by (unfold backoff; rewrite length_map, length_seq; reflexivity).
  assert (Hwaits : waits w' = waits w ++ backoff initialDelay N)
    by (rewrite Hw, waits_app, waits_schedule; reflexivity).
  repeat split; try assumption.
  - rewrite Hw, attempts_app, attempts_schedule, Hlen. lia.
  - intros k Hk. rewrite Hwaits, nth_error_app2 by lia.
    replace (List.length (waits w) + k - List.length (waits w))%nat
      with k by lia.
    unfold backoff. rewrite nth_error_map, nth_error_seq.
    destruct (Nat.ltb_spec k N); [reflexivity | lia].
Qed.

Lemma fetchWithRetry_attempts_and_backoff_witness :
  snd (_fetchWithRetry always_failing "u" example_options (Z.of_nat 3) 100 [])
    = [] ++ schedule "u" example_options (backoff 100 3) /\
  attempts (snd (_fetchWithRetry always_failing "u" example_options
                                 (Z.of_nat 3) 100 []))
    = (attempts [] + (3 + 1))%nat /\
  waits (snd (_fetchWithRetry always_failing "u" example_options
                              (Z.of_nat 3) 100 []))
    = waits [] ++ backoff 100 3 /\
  List.length (backoff 100 3) = 3%nat /\
  nth_error (waits (snd (_fetchWithRetry always_failing "u" example_options
                                         (Z.of_nat 3) 100 [])))
            (List.length (waits []) + 2) =
  Some (100 * 2 ^ Z.of_nat 2).
Proof.
  destruct (fetchWithRetry_attempts_and_backoff
              always_failing "u" example_options 3 100 [])
    as (Htrace & Hcount & Hwaits & Hlen & Hkth).
  - intros [|i] _; simpl; [exact I | lia].
  - split; [exact Htrace|]. split; [exact Hcount|]. split; [exact Hwaits|].
    split; [exact Hlen|]. apply (Hkth 2%nat). lia.
Defined.

(** C10.  The call always ends, after some [n] earlier attempts, on an
    attempt that decides it alone.  If that attempt received a response, the
    response is returned, whatever its status and however many retries are
    left.  An error is thrown only if that attempt was rejected, the error is
    that rejection, and no retry was left ([retries - n <= 0], which with
    [0 <= retries] means [n = retries]). *)
Theorem fetchWithRetry_throws_only_last_rejection
    (network : nat -> FetchResult) (url : string) (options : RequestInit)
    (retries retryDelay : Z) (w : World) :
  let (res, w') := _fetchWithRetry network url options retries retryDelay w in
  exists n : nat,
    attempts w' = (attempts w + n + 1)%nat /\
    (0 <= retries -> Z.of_nat n <= retries) /\
    match network (attempts w + n)%nat with
    | Resolved response => res = Return response
    | Rejected error => res = Throw error /\ retries - Z.of_nat n <= 0
    end.
Proof.
  remember (Z.to_nat retries) as m eqn:Hm.
  revert retries retryDelay w Hm.
  induction m as [|m IH]; intros retries d w Hm;
    rewrite fetchWithRetry_step; cbv zeta.
  - assert (Hle : (retries <=? 0) = true) by (apply Z.leb_le; lia).
    rewrite Hle.
    assert (Hone : attempts (w ++ [Fetched url options])
                   = (attempts w + 1)%nat)
      by (rewrite attempts_app; reflexivity).
    destruct (network (attempts w)) as [response|error] eqn:Hnet;
      rewrite ?orb_true_r; exists 0%nat;
      rewrite Nat.add_0_r, Hnet; (split; [exact Hone|]); split;
      try (intros; lia); try reflexivity.
    split; [reflexivity | apply Z.leb_le in Hle; lia].
  - assert (Hgt : (retries <=? 0) = false) by (apply Z.leb_gt; lia).
    assert (Hrec :
      let (res, w') :=
        _fetchWithRetry network url options (retries - 1) (d * 2)
          ((w ++ [Fetched url options]) ++ [Waited d]) in
      exists n : nat,
        attempts w' = (attempts w + n + 1)%nat /\
        (0 <= retries -> Z.of_nat n <= retries) /\
        match network (attempts w + n)%nat with
        | Resolved response => res = Return response
        | Rejected error => res = Throw error /\ retries - Z.of_nat n <= 0
        end).
    { specialize (IH (retries - 1) (d * 2)
                     ((w ++ [Fetched url options]) ++ [Waited d])
                     ltac:(lia)).
      destruct (_fetchWithRetry network url options (retries - 1) (d * 2)
                  ((w ++ [Fetched url options]) ++ [Waited d]))
        as [res w'].
      destruct IH as [n [Ha [Hb Hc]]].
      rewrite !attempts_app in Ha, Hc. cbn in Ha, Hc.
      exists (S n). split; [lia|]. split; [lia|].
      replace (attempts w + S n)%nat with (attempts w + 1 + 0 + n)%nat by lia.
      destruct (network (attempts w + 1 + 0 + n)%nat); [exact Hc|].
      destruct Hc as [Hc1 Hc2]. split; [exact Hc1 | lia]. }
    rewrite Hgt.
    destruct (network (attempts w)) as [response|error] eqn:Hnet;
      [|exact Hrec].
    destruct (ok response
              || negb (includes RETRY_STATUS_CODES (status response))
              || false); [|exact Hrec].
    exists 0%nat. rewrite Nat.add_0_r, Hnet, attempts_app. cbn.
    repeat split; lia.
Qed.

(** C8.  Called without retry arguments, the transport runs with 3 retries
    and a first delay of 500 ms, each later delay being twice the one
    before: against a transport that always fails it makes 4 attempts
    separated by waits of 500, 1000 and 2000 ms.  [_request] passes on 3
    retries when given none, and a client built without an endpoint uses
    [https://api.mistral.ai]. *)
Theorem default_retry_policy_and_endpoint :
  (forall network url options w,
      _fetchWithRetry_call network url options None None w =
      _fetchWithRetry network url options 3 500 w) /\
  (forall url options w e,
      let w' := snd (_fetchWithRetry_call (fun _ => Rejected e) url options
                                          None None w) in
      attempts w' = (attempts w + 4)%nat /\
      waits w' = waits w ++ [500; 500 * 2; 500 * 2 * 2]) /\
  (forall network decode parse stringify this method path request w,
      _request network decode parse stringify this method path request
               None w =
      _request network decode parse stringify this method path request
               (Some 3) w) /\
  (forall env apiKey,
      endpoint (constructor env apiKey None) = "https://api.mistral.ai").
Proof.
  split; [reflexivity|]. split; [|split; reflexivity].
  intros url options w e w'. subst w'. unfold _fetchWithRetry_call.
  cbn [or_default].
  change 3 with (Z.of_nat 3).
  rewrite fetchWithRetry_trace_when_failing by (intros; exact I).
  rewrite attempts_app, waits_app, attempts_schedule, waits_schedule.
  split; reflexivity.
Qed.

(** * Properties of generators and strings *)

Section GeneratorFacts.

Context {A B C : Type}.

Lemma gbind_gret_l (a : A) (k : A -> Gen B) : gbind (gret a) k = k a.
Proof. unfold gbind, gret. destruct (k a). reflexivity. Qed.

Lemma gbind_await_return (a : A) (k : A -> Gen B) :
  gbind (await (Return a)) k = k a.
Proof. apply gbind_gret_l. Qed.

Lemma gbind_await_throw (e : JsError) (k : A -> Gen B) :
  gbind (await (Throw e)) k = ([], Throw e).
Proof. reflexivity. Qed.

Lemma gbind_gret_r (m : Gen unit) : (m ;; gret tt) = m.
Proof.
  destruct m as [evs [[]|e]]; cbn; rewrite ?app_nil_r; reflexivity.
Qed.

Lemma gbind_assoc (m : Gen A) (k : A -> Gen B) (h : B -> Gen C) :
  gbind (gbind m k) h = gbind m (fun a => gbind (k a) h).
Proof.
  destruct m as [evs [a|e]]; cbn; [|reflexivity].
  destruct (k a) as [evs1 [b|e1]]; cbn; [|reflexivity].
  destruct (h b) as [evs2 r]. rewrite app_assoc. reflexivity.
Qed.

End GeneratorFacts.

Section LoopFacts.

Context {A : Type}.
Variable body : A -> Gen unit.

Lemma for_of_app (xs ys : list A) :
  for_of (xs ++ ys) body = (for_of xs body ;; for_of ys body).
Proof.
  induction xs as [|x xs IH]; cbn [for_of app].
  - rewrite gbind_gret_l. reflexivity.
  - rewrite IH, gbind_assoc. reflexivity.
Qed.

(** An element whose body does nothing can be left out of the loop. *)
Lemma for_of_skip (pre post : list A) (x : A) :
  body x = gret tt ->
  for_of (pre ++ x :: post) body = for_of (pre ++ post) body.
Proof.
  intro Hx. rewrite !for_of_app. cbn [for_of].
  rewrite Hx, gbind_gret_l. reflexivity.
Qed.

(** A loop stops at the first element whose body throws without
    yielding. *)
Lemma for_of_throw (pre post : list A) (x : A) (evs : list Json)
    (e : JsError) :
  for_of pre body = (evs, Return tt) ->
  body x = ([], Throw e) ->
  for_of (pre ++ x :: post) body = (evs, Throw e).
Proof.
  intros Hpre Hx. rewrite for_of_app. cbn [for_of].
  rewrite Hpre, Hx. cbn. rewrite app_nil_r. reflexivity.
Qed.

End LoopFacts.

Section StringFacts.

Lemma split_nonempty (s : string) : split s <> [].
Proof.
  destruct s as [|c s]; cbn; [discriminate|].
  destruct (Ascii.eqb c LF); [discriminate|].
  destruct (split s); discriminate.
Qed.

(** Splitting a text at one of its newlines splits its list of lines. *)
Lemma split_app_LF (t u : string) :
  split (t ++ String LF u)%string = split t ++ split u.
Proof.
  induction t as [|c t IH]; cbn [String.append split].
  - rewrite Ascii.eqb_refl. reflexivity.
  - rewrite IH. destruct (Ascii.eqb c LF); [reflexivity|].
    destruct (split t) as [|l ls] eqn:E;
      [exfalso; exact (split_nonempty t E) | reflexivity].
Qed.

Lemma append_assoc (a b c : string) :
  ((a ++ b) ++ c)%string = (a ++ (b ++ c))%string.
Proof.
  induction a as [|x a IH]; cbn; [reflexivity | rewrite IH; reflexivity].
Qed.

Lemma trim_leading_space (c : ascii) (s : string) :
  isWhiteSpace c = true -> trim (String c s) = trim s.
Proof.
  intro Hc. unfold trim. cbn [trimEnd].
  destruct (trimEnd s) as [|d t].
  - rewrite Hc. reflexivity.
  - cbn [trimStart]. rewrite Hc. reflexivity.
Qed.

End StringFacts.

(** * Properties of the stream decoder *)

Section DecoderFacts.

Variable decode : list byte -> string.
Variable parse : string -> Completion Json.

Lemma chunk_body_bytes (b : list byte) :
  chunk_body decode parse (VBytes b) = decodeLines parse (split (decode b)).
Proof.
  unfold chunk_body, decodeLines. cbn [textDecoder_decode].
  rewrite gbind_await_return. reflexivity.
Qed.

(** The two nested loops are one loop over the lines of all chunks. *)
Lemma decodeStream_lines (chunks : list (list byte)) :
  decodeStream decode parse chunks =
  decodeLines parse (streamLines decode chunks).
Proof.
  unfold decodeStream, chatStream_loop. cbn [iterate].
  rewrite gbind_await_return.
  induction chunks as [|c chunks IH]; [reflexivity|].
  cbn [map for_of]. rewrite IH, chunk_body_bytes.
  unfold decodeLines, streamLines. cbn [flat_map].
  rewrite for_of_app. reflexivity.
Qed.

Lemma chunkLine_body_not_data (chunkLine : string) :
  startsWith chunkLine "data:" = false ->
  chunkLine_body parse chunkLine = gret tt.
Proof. unfold chunkLine_body. intros ->. reflexivity. Qed.

Lemma chunkLine_body_done (chunkLine : string) :
  startsWith chunkLine "data:" = true ->
  chunkData chunkLine = "[DONE]" ->
  chunkLine_body parse chunkLine = gret tt.
Proof.
  unfold chunkLine_body, chunkData. intros -> ->. reflexivity.
Qed.

Lemma chunkLine_body_event (chunkLine : string) (v : Json) :
  startsWith chunkLine "data:" = true ->
  chunkData chunkLine <> "[DONE]" ->
  parse (chunkData chunkLine) = Return v ->
  chunkLine_body parse chunkLine = yield v.
Proof.
  unfold chunkLine_body, chunkData. intros -> Hne ->.
  apply String.eqb_neq in Hne. rewrite Hne. reflexivity.
Qed.

Lemma chunkLine_body_malformed (chunkLine : string) (e : JsError) :
  startsWith chunkLine "data:" = true ->
  chunkData chunkLine <> "[DONE]" ->
  parse (chunkData chunkLine) = Throw e ->
  chunkLine_body parse chunkLine = ([], Throw e).
Proof.
  unfold chunkLine_body, chunkData. intros -> Hne ->.
  apply String.eqb_neq in Hne. rewrite Hne. reflexivity.
Qed.

(** Where a white space follows the colon, the payload is what follows
    the five characters of the prefix, trimmed. *)
Lemma chunkData_after_space (c : ascii) (rest : string) :
  isWhiteSpace c = true ->
  chunkData ("data:" ++ String c rest) = trim (String c rest).
Proof.
  intro Hc. unfold chunkData. cbn [String.append substring].
  symmetry. apply trim_leading_space. exact Hc.
Qed.

End DecoderFacts.

Section PayloadFacts.

Lemma substring_add (n m : nat) :
  forall s : string, substring (n + m) s = substring m (substring n s).
Proof.
  induction n as [|n IH]; intro s; [reflexivity|].
  destruct s as [|c s]; cbn [Nat.add substring].
  - destruct m; reflexivity.
  - apply IH.
Qed.

(** Where white space, or nothing, follows the prefix, what the code
    extracts is the payload as the specification words it. *)
Lemma chunkData_is_payload (chunkLine : string) :
  spaceAfterPrefix chunkLine = true ->
  chunkData chunkLine = payload_after_prefix chunkLine.
Proof.
  unfold spaceAfterPrefix, chunkData, payload_after_prefix.
  change 6%nat with (5 + 1)%nat. rewrite substring_add.
  destruct (substring 5 chunkLine) as [|c rest]; [reflexivity|].
  intro Hc. cbn [substring]. symmetry. apply trim_leading_space. exact Hc.
Qed.

End PayloadFacts.

(** What the character after the colon does, on two lines without a space
    (the defect of C3): the sentinel is not recognised and throws, and a
    payload that does not parse yields the event of its tail. *)
Example lines_without_space_after_the_prefix :
  payload_after_prefix "data:[DONE]" = "[DONE]" /\
  chunkLine_body Reference.JSON_parse "data:[DONE]" =
    ([], Throw (SyntaxError "DONE]")) /\
  Reference.JSON_parse (payload_after_prefix (dq "data:x{'a':1}")) =
    Throw (SyntaxError (dq "x{'a':1}")) /\
  chunkLine_body Reference.JSON_parse (dq "data:x{'a':1}") =
    ([JObj [("a", JNum (inject_Z 1))]], Return tt).
Proof. repeat split. Qed.

(** C7, as stated, fails: a comment line that mentions [data:], cut just
    before the mention.  Delivered whole, the line does not start with
    [data:] and is skipped; delivered as two chunks, the second chunk's
    piece is taken for a frame and the sequence ends in an error. *)
Lemma cut_comment_line_is_taken_for_a_frame :
  note_line_head ++ note_line_tail = note_line /\
  streamLines Reference.decode [note_line] =
    [": note data: oops"; EmptyString] /\
  startsWith ": note data: oops" "data:" = false /\
  decodeStream Reference.decode Reference.JSON_parse [note_line] =
    ([], Return tt) /\
  decodeStream Reference.decode Reference.JSON_parse
               [note_line_head; note_line_tail] =
    ([], Throw (SyntaxError "oops")).
Proof. repeat split. Qed.

(** C7, amended.  The lines are the pieces each chunk splits into, none
    carried from one chunk to the next.  Among them, the first line that
    starts with [data:] followed by white space (or by nothing), whose
    payload is not the sentinel and does not parse, ends the sequence with
    the parser's error: the events of the lines before it are emitted and
    nothing of what follows is.  A line that does not start with [data:]
    yields nothing, throws nothing, and the stream decodes as if the line
    were absent. *)
Theorem malformed_frame_is_fatal_and_other_lines_are_skipped
    (decode : list byte -> string) (parse : string -> Completion Json) :
  (forall chunks pre chunkLine post evs e,
      streamLines decode chunks = pre ++ chunkLine :: post ->
      decodeLines parse pre = (evs, Return tt) ->
      startsWith chunkLine "data:" = true ->
      spaceAfterPrefix chunkLine = true ->
      payload_after_prefix chunkLine <> "[DONE]" ->
      parse (payload_after_prefix chunkLine) = Throw e ->
      decodeStream decode parse chunks = (evs, Throw e)) /\
  (forall chunks pre chunkLine post,
      streamLines decode chunks = pre ++ chunkLine :: post ->
      startsWith chunkLine "data:" = false ->
      chunkLine_body parse chunkLine = ([], Return tt) /\
      decodeStream decode parse chunks = decodeLines parse (pre ++ post)).
Proof.
  split.
  - intros chunks pre chunkLine post evs e Hlines Hpre Hdata Hsp Hne Hbad.
    rewrite <- (chunkData_is_payload chunkLine Hsp) in Hne, Hbad.
    rewrite decodeStream_lines, Hlines. unfold decodeLines.
    apply for_of_throw; [exact Hpre|].
    apply chunkLine_body_malformed; assumption.
  - intros chunks pre chunkLine post Hlines Hother.
    pose proof (chunkLine_body_not_data parse chunkLine Hother) as Hskip.
    split; [exact Hskip|].
    rewrite decodeStream_lines, Hlines. unfold decodeLines.
    apply for_of_skip. exact Hskip.
Qed.

Lemma malformed_frame_is_fatal_and_other_lines_are_skipped_witness :
  decodeStream Reference.decode Reference.JSON_parse broken_stream =
    ([JObj [("a", JNum (inject_Z 1))]], Throw (SyntaxError "{oops")) /\
  chunkLine_body Reference.JSON_parse ": keep-alive" = ([], Return tt) /\
  decodeStream Reference.decode Reference.JSON_parse broken_stream =
    decodeLines Reference.JSON_parse
      ([dq "data: {'a':1}"] ++
       [EmptyString; "data: {oops"; dq "data: {'a':2}"; EmptyString]).
Proof.
  split.
  - apply (proj1 (malformed_frame_is_fatal_and_other_lines_are_skipped
                    Reference.decode Reference.JSON_parse)
             broken_stream
             [dq "data: {'a':1}"; ": keep-alive"; EmptyString]
             "data: {oops" [dq "data: {'a':2}"; EmptyString]).
    + reflexivity.
    + reflexivity.
    + reflexivity.
    + reflexivity.
    + vm_compute. discriminate.
    + reflexivity.
  - apply (proj2 (malformed_frame_is_fatal_and_other_lines_are_skipped
                    Reference.decode Reference.JSON_parse)
             broken_stream [dq "data: {'a':1}"] ": keep-alive"
             [EmptyString; "data: {oops"; dq "data: {'a':2}"; EmptyString]).
    + reflexivity.
    + reflexivity.
Defined.

(** C6, as stated, fails: the sentinel line cut in the middle.  Delivered
    whole it yields nothing and ends normally; delivered as two chunks, the
    first chunk's half line is parsed on its own and the sequence ends in
    an error. *)
Lemma cut_sentinel_line_is_an_error :
  done_frame_head ++ done_frame_tail = done_frame /\
  streamLines Reference.decode [done_frame] =
    ["data: [DONE]"; EmptyString] /\
  payload_after_prefix "data: [DONE]" = "[DONE]" /\
  decodeStream Reference.decode Reference.JSON_parse [done_frame] =
    ([], Return tt) /\
  decodeStream Reference.decode Reference.JSON_parse
               [done_frame_head; done_frame_tail] =
    ([], Throw (SyntaxError "[D")).
Proof. repeat split. Qed.

(** C6, amended.  The lines are the pieces each chunk splits into, none
    carried from one chunk to the next.  Among them, a line that starts
    with [data:] followed by white space and whose payload is [[DONE]]
    yields nothing and throws nothing, and the stream decodes as if the
    line were absent.  The scenario text, delivered as one chunk, decodes to
    the two events and ends normally. *)
Theorem done_sentinel_is_silent
    (decode : list byte -> string) (parse : string -> Completion Json) :
  (forall chunks pre chunkLine post,
      streamLines decode chunks = pre ++ chunkLine :: post ->
      startsWith chunkLine "data:" = true ->
      spaceAfterPrefix chunkLine = true ->
      payload_after_prefix chunkLine = "[DONE]" ->
      chunkLine_body parse chunkLine = ([], Return tt) /\
      decodeStream decode parse chunks = decodeLines parse (pre ++ post)) /\
  (forall bytes v1 v2,
      decode bytes = scenario ->
      parse (dq "{'a':1}") = Return v1 ->
      parse (dq "{'a':2}") = Return v2 ->
      decodeStream decode parse [bytes] = ([v1; v2], Return tt)).
Proof.
  split.
  - intros chunks pre chunkLine post Hlines Hdata Hsp Hdone.
    rewrite <- (chunkData_is_payload chunkLine Hsp) in Hdone.
    pose proof (chunkLine_body_done parse chunkLine Hdata Hdone) as Hskip.
    split; [exact Hskip|].
    rewrite decodeStream_lines, Hlines. unfold decodeLines.
    apply for_of_skip. exact Hskip.
  - intros bytes v1 v2 Hbytes H1 H2.
    rewrite decodeStream_lines. unfold streamLines. cbn [flat_map].
    rewrite Hbytes, app_nil_r.
    assert (Hsplit : split scenario =
                     [ dq "data: {'a':1}"; EmptyString;
                       dq "data: {'a':2}"; EmptyString;
                       "data: [DONE]"; EmptyString ]) by reflexivity.
    rewrite Hsplit. unfold decodeLines. cbn [for_of].
    rewrite (chunkLine_body_event parse (dq "data: {'a':1}") v1);
      [| reflexivity | vm_compute; discriminate | exact H1].
    rewrite (chunkLine_body_event parse (dq "data: {'a':2}") v2);
      [| reflexivity | vm_compute; discriminate | exact H2].
    rewrite (chunkLine_body_not_data parse EmptyString) by reflexivity.
    rewrite (chunkLine_body_done parse "data: [DONE]") by reflexivity.
    reflexivity.
Qed.

Lemma done_sentinel_is_silent_witness :
  (chunkLine_body Reference.JSON_parse "data: [DONE]" = ([], Return tt) /\
   decodeStream Reference.decode Reference.JSON_parse
                [Reference.encode (unlines ["data: [DONE]"; "data: 7"])] =
   decodeLines Reference.JSON_parse ([] ++ ["data: 7"; EmptyString])) /\
  decodeStream Reference.decode Reference.JSON_parse
               [Reference.encode scenario] =
  ([JObj [("a", JNum (inject_Z 1))]; JObj [("a", JNum (inject_Z 2))]],
   Return tt).
Proof.
  split.
  - apply (proj1 (done_sentinel_is_silent Reference.decode
                                          Reference.JSON_parse)
             _ [] "data: [DONE]" ["data: 7"; EmptyString]);
      reflexivity.
  - apply (proj2 (done_sentinel_is_silent Reference.decode
                                          Reference.JSON_parse));
      reflexivity.
Defined.

(** C2, as stated, fails: one [data:] line cut in the middle.  Delivered
    whole it yields its event; delivered as two chunks, the first chunk's
    half line is parsed on its own and the sequence ends in an error with no
    event. *)
Lemma cut_inside_a_data_line_changes_the_events :
  one_frame_head ++ one_frame_tail = one_frame /\
  decodeStream Reference.decode Reference.JSON_parse [one_frame] =
    ([JObj [("a", JNum (inject_Z 1))]], Return tt) /\
  decodeStream Reference.decode Reference.JSON_parse
               [one_frame_head; one_frame_tail] =
    ([], Throw (SyntaxError (dq "{'a"))) /\
  fst (decodeStream Reference.decode Reference.JSON_parse
                    [one_frame_head; one_frame_tail]) <>
  fst (decodeStream Reference.decode Reference.JSON_parse [one_frame]).
Proof.
  split; [reflexivity|]. split; [reflexivity|]. split; [reflexivity|].
  vm_compute. discriminate.
Qed.

(** C2, amended.  When the first chunk ends with a newline, and the text
    decoder maps the two chunks to the two halves of the text of the whole,
    two chunks decode to what the single chunk decodes to. *)
Theorem cut_after_a_newline_keeps_the_events
    (decode : list byte -> string) (parse : string -> Completion Json)
    (first second : list byte) (t : string) :
  decode first = (t ++ String LF EmptyString)%string ->
  decode (first ++ second) = (decode first ++ decode second)%string ->
  decodeStream decode parse [first; second] =
  decodeStream decode parse [first ++ second].
Proof.
  intros Hfirst Hwhole.
  rewrite !decodeStream_lines. unfold streamLines. cbn [flat_map].
  rewrite Hwhole, Hfirst, append_assoc. cbn [String.append].
  rewrite !split_app_LF, !app_nil_r. cbn [split].
  rewrite <- app_assoc. cbn [app]. unfold decodeLines.
  apply for_of_skip. apply chunkLine_body_not_data. reflexivity.
Qed.

Lemma cut_after_a_newline_keeps_the_events_witness :
  decodeStream Reference.decode Reference.JSON_parse
               [one_frame; another_frame] =
  decodeStream Reference.decode Reference.JSON_parse
               [one_frame ++ another_frame].
Proof.
  apply (cut_after_a_newline_keeps_the_events
           Reference.decode Reference.JSON_parse one_frame another_frame
           (dq "data: {'a':1}")); reflexivity.
Defined.

(** C3, at the line [data:{'a':1}] (double quotes for the apostrophes).
    The line is a candidate frame, and what follows its five-character
    prefix is the JSON text; the payload the code extracts starts one
    character later, so the opening brace is lost and the line fails to
    parse. *)
Theorem payload_skips_the_character_after_the_prefix :
  startsWith (dq "data:{'a':1}") "data:" = true /\
  String.length "data:" = 5%nat /\
  trim (substring 5 (dq "data:{'a':1}")) = dq "{'a':1}" /\
  chunkData (dq "data:{'a':1}") = dq "'a':1}" /\
  Reference.JSON_parse (dq "{'a':1}") =
    Return (JObj [("a", JNum (inject_Z 1))]) /\
  chunkLine_body Reference.JSON_parse (dq "data:{'a':1}") =
    ([], Throw (SyntaxError (dq "'a':1}"))).
Proof.
  repeat split.
Qed.

(** What [chatStream] iterates over is a JSON value, and no JSON value
    gives the loop a buffer to decode: the loop yields nothing. *)
Lemma chatStream_loop_on_json_yields_nothing
    (decode : list byte -> string) (parse : string -> Completion Json)
    (j : Json) :
  fst (chatStream_loop decode parse (VJson j)) = [].
Proof.
  unfold chatStream_loop.
  destruct j as [|b|q|s|items|fields]; try reflexivity; cbn [iterate];
    rewrite gbind_await_return.
  - destruct s as [|c s]; reflexivity.
  - destruct items as [|x items]; reflexivity.
Qed.

Lemma chatStream_yields_nothing
    (network : nat -> FetchResult) (decode : list byte -> string)
    (parse : string -> Completion Json) (stringify : JsValue -> option string)
    (this : MistralClient) (p : ChatParams) (w : World) :
  fst (fst (chatStream network decode parse stringify this p w)) = [].
Proof.
  unfold chatStream.
  destruct (_request network decode parse stringify this "post"
              "v1/chat/completions" (chatStream_request p) None w)
    as [[j|e] w']; cbn [fst]; [|reflexivity].
  rewrite gbind_await_return. apply chatStream_loop_on_json_yields_nothing.
Qed.

(** C4, at a streaming request answered 200 with the scenario text as its
    body.  The decoder run on the body's byte stream gives the two events;
    [chatStream] instead receives what [_request] made of [response.json()],
    here the error of parsing the event-stream text as one JSON document,
    and yields nothing. *)
Theorem chatStream_is_handed_parsed_json_not_the_byte_stream :
  decodeStream Reference.decode Reference.JSON_parse
               (body scenario_response) =
    ([JObj [("a", JNum (inject_Z 1))]; JObj [("a", JNum (inject_Z 2))]],
     Return tt) /\
  fst (_request (fun _ => Resolved scenario_response)
                Reference.decode Reference.JSON_parse
                Reference.JSON_stringify example_client
                "post" "v1/chat/completions"
                (chatStream_request example_params) None []) =
    json Reference.decode Reference.JSON_parse scenario_response /\
  fst (chatStream (fun _ => Resolved scenario_response)
                  Reference.decode Reference.JSON_parse
                  Reference.JSON_stringify example_client example_params [])
    = ([], Throw (SyntaxError scenario)).
Proof.
  repeat split.
Qed.

(** * Properties of the chat requests *)

Lemma requests_app (w v : World) : requests (w ++ v) = requests w ++ requests v.
Proof.
  induction w as [|[u o|ms] w IH]; cbn; rewrite ?IH; reflexivity.
Qed.

(** Every attempt of one call carries the same url and options. *)
Lemma fetchWithRetry_requests
    (network : nat -> FetchResult) (url : string) (options : RequestInit)
    (retries retryDelay : Z) (w : World) :
  exists k : nat,
    requests (snd (_fetchWithRetry network url options retries retryDelay w))
    = requests w ++ repeat (url, options) (S k).
Proof.
  remember (Z.to_nat retries) as m eqn:Hm.
  revert retries retryDelay w Hm.
  induction m as [|m IH]; intros retries d w Hm;
    rewrite fetchWithRetry_step; cbv zeta.
  - assert (Hle : (retries <=? 0) = true) by (apply Z.leb_le; lia).
    rewrite Hle. exists 0%nat.
    destruct (network (attempts w)); rewrite ?orb_true_r; cbn [snd];
      rewrite requests_app; reflexivity.
  - assert (Hrec : exists k : nat,
      requests (snd (_fetchWithRetry network url options (retries - 1)
                       (d * 2) ((w ++ [Fetched url options]) ++ [Waited d])))
      = requests w ++ repeat (url, options) (S k)).
    { destruct (IH (retries - 1) (d * 2)
                   ((w ++ [Fetched url options]) ++ [Waited d])
                   ltac:(lia)) as [k Hk].
      exists (S k). rewrite Hk, !requests_app. cbn [requests repeat].
      rewrite app_nil_r, <- app_assoc. reflexivity. }
    destruct (network (attempts w)) as [response|error].
    + destruct (ok response
                || negb (includes RETRY_STATUS_CODES (status response))
                || (retries <=? 0)); [|exact Hrec].
      exists 0%nat. cbn [snd]. rewrite requests_app. reflexivity.
    + destruct (retries <=? 0); [|exact Hrec].
      exists 0%nat. cbn [snd]. rewrite requests_app. reflexivity.
Qed.

Lemma request_requests
    (network : nat -> FetchResult) (decode : list byte -> string)
    (parse : string -> Completion Json) (stringify : JsValue -> option string)
    (this : MistralClient) (method path : string) (request : JsValue)
    (retries : option Z) (w : World) :
  match Headers_new (request_headers this) with
  | Throw e =>
      _request network decode parse stringify this method path request
               retries w = (Throw e, w)
  | Return hs =>
      exists k : nat,
        requests (snd (_request network decode parse stringify this method
                                path request retries w))
        = requests w ++
          repeat (request_url this path,
                  request_options stringify hs method request) (S k)
  end.
Proof.
  unfold _request, _fetchWithRetry_call, request_headers, request_url,
    request_options. cbv zeta.
  destruct (Headers_new
              [("Authorization", ("Bearer " ++ template (apiKey this))%string);
               ("Content-Type", "application/json")]) as [hs|e];
    [|reflexivity].
  match goal with
  | |- context [_fetchWithRetry ?n ?u ?o ?r ?d ?w0] =>
      destruct (fetchWithRetry_requests n u o r d w0) as [k Hk];
      destruct (_fetchWithRetry n u o r d w0) as [[response|e] w']
  end; exists k; exact Hk.
Qed.

Lemma nullish_provided (v : JsValue) : provided v -> v ?? VUndefined = v.
Proof.
  intros [Hu Hn]. destruct v as [|[]| | |]; try reflexivity; contradiction.
Qed.

(** C9.  The object [chat] builds has [stream] false and the one
    [chatStream] builds has [stream] true; both carry [model] and [messages]
    as given and every other provided parameter unchanged under its wire
    name; and every request either operation sends goes to
    [<endpoint>/v1/chat/completions] with the serialisation of that object
    as its body.  (Nothing is sent when [new Headers] refuses the key; at
    least one request is sent otherwise.) *)
Theorem chat_requests_set_stream_and_forward_parameters
    (network : nat -> FetchResult) (decode : list byte -> string)
    (parse : string -> Completion Json) (stringify : JsValue -> option string)
    (this : MistralClient) (p : ChatParams) (w : World) :
  get "stream" (chat_request p) = VJson (JBool false) /\
  get "stream" (chatStream_request p) = VJson (JBool true) /\
  (forall req, req = chat_request p \/ req = chatStream_request p ->
      get "model" req = model p /\
      get "messages" req = messages p /\
      (provided (temperature p) -> get "temperature" req = temperature p) /\
      (provided (maxTokens p) -> get "max_tokens" req = maxTokens p) /\
      (provided (topP p) -> get "top_p" req = topP p) /\
      (provided (randomSeed p) -> get "random_seed" req = randomSeed p) /\
      (provided (safeMode p) -> get "safe_prompt" req = safeMode p)) /\
  match Headers_new (request_headers this) with
  | Throw e =>
      chat network decode parse stringify this p w = (Throw e, w) /\
      chatStream network decode parse stringify this p w =
        (([], Throw e), w)
  | Return hs =>
      (exists k : nat,
          requests (snd (chat network decode parse stringify this p w)) =
          requests w ++
          repeat ((endpoint this ++ "/v1/chat/completions")%string,
                  {| method := "post";
                     headers := hs;
                     payload := stringify (chat_request p) |}) (S k)) /\
      (exists k : nat,
          requests (snd (chatStream network decode parse stringify this
                                    p w)) =
          requests w ++
          repeat ((endpoint this ++ "/v1/chat/completions")%string,
                  {| method := "post";
                     headers := hs;
                     payload := stringify (chatStream_request p) |}) (S k))
  end.
Proof.
  split; [reflexivity|]. split; [reflexivity|]. split.
  - intros req [-> | ->]; (split; [reflexivity|]); (split; [reflexivity|]);
      repeat split; intro H; cbn; apply nullish_provided; exact H.
  - pose proof (request_requests network decode parse stringify this "post"
                  "v1/chat/completions" (chat_request p) None w) as Hchat.
    pose proof (request_requests network decode parse stringify this "post"
                  "v1/chat/completions" (chatStream_request p) None w)
      as Hstream.
    unfold chat, chatStream.
    destruct (Headers_new (request_headers this)) as [hs|e].
    + split; [exact Hchat|].
      destruct Hstream as [k Hk].
      destruct (_request network decode parse stringify this "post"
                  "v1/chat/completions" (chatStream_request p) None w)
        as [response w'].
      exists k. exact Hk.
    + split; [exact Hchat|]. rewrite Hstream. reflexivity.
Qed.

Lemma chat_requests_set_stream_and_forward_parameters_witness :
  get "model" (chat_request example_params) = model example_params /\
  get "messages" (chat_request example_params) = messages example_params /\
  get "temperature" (chat_request example_params) =
    temperature example_params /\
  get "max_tokens" (chat_request example_params) = maxTokens example_params /\
  get "top_p" (chat_request example_params) = topP example_params /\
  get "random_seed" (chat_request example_params) =
    randomSeed example_params /\
  get "safe_prompt" (chat_request example_params) = safeMode example_params.
Proof.
  destruct (chat_requests_set_stream_and_forward_parameters
              always_failing Reference.decode Reference.JSON_parse
              Reference.JSON_stringify example_client example_params [])
    as (_ & _ & H & _).
  destruct (H (chat_request example_params) (or_introl eq_refl))
    as (Hm & Hg & Ht & Hx & Hp & Hr & Hs).
  split; [exact Hm|]. split; [exact Hg|].
  split; [apply Ht; split; discriminate|].
  split; [apply Hx; split; discriminate|].
  split; [apply Hp; split; discriminate|].
  split; [apply Hr; split; discriminate|].
  apply Hs; split; discriminate.
Defined.

(** * Further properties of the retrying transport *)

Lemma retriable_dec (o : FetchResult) : {retriable o} + {~ retriable o}.
Proof.
  destruct o as [response|error]; [|left; exact I].
  cbn [retriable].
  destruct (includes RETRY_STATUS_CODES (status response)) eqn:E.
  - left. apply includes_In. exact E.
  - right. intro H. apply includes_In in H. congruence.
Qed.

(** The test of the [try] branch, read on the status alone. *)
Lemma return_test_false (response : Response) (retries : Z) :
  ok response || negb (includes RETRY_STATUS_CODES (status response))
  || (retries <=? 0) = false <->
  In (status response) RETRY_STATUS_CODES /\ 0 < retries.
Proof.
  split.
  - intro H. apply orb_false_elim in H as [H Hr].
    apply orb_false_elim in H as [_ Hi].
    apply negb_false_iff in Hi. apply includes_In in Hi.
    apply Z.leb_gt in Hr. split; assumption.
  - intros [Hi Hr]. rewrite (retry_status_not_ok response Hi).
    apply includes_In in Hi. rewrite Hi.
    apply Z.leb_gt in Hr. rewrite Hr. reflexivity.
Qed.

(** Every call, whatever the remote end does: after [n] retried attempts,
    all of them retriable failures, the attempt number [n] decides; it is
    not retriable unless the retries are used up; its outcome is the result;
    and the history has grown by the schedule of the first [n] waits. *)
Lemma fetchWithRetry_run
    (network : nat -> FetchResult) (url : string) (options : RequestInit)
    (m : nat) :
  forall (retries retryDelay : Z) (w : World),
    Z.to_nat retries = m ->
    exists n : nat,
      (n <= m)%nat /\
      (forall i, (i < n)%nat -> retriable (network (attempts w + i)%nat)) /\
      ((n < m)%nat -> ~ retriable (network (attempts w + n)%nat)) /\
      _fetchWithRetry network url options retries retryDelay w =
      (completion (network (attempts w + n)%nat),
       w ++ schedule url options (backoff retryDelay n)).
Proof.
  induction m as [|m IH]; intros retries d w Hm;
    rewrite fetchWithRetry_step; cbv zeta.
  - assert (Hle : (retries <=? 0) = true) by (apply Z.leb_le; lia).
    exists 0%nat. rewrite Nat.add_0_r, Hle.
    split; [lia|]. split; [intros i Hi; lia|]. split; [intro Hlt; lia|].
    destruct (network (attempts w)); rewrite ?orb_true_r; reflexivity.
  - assert (Hgt : 0 < retries) by lia.
    assert (Hrec : exists n : nat,
      (0 < n <= S m)%nat /\
      (forall i, (0 < i < n)%nat ->
                 retriable (network (attempts w + i)%nat)) /\
      ((n < S m)%nat -> ~ retriable (network (attempts w + n)%nat)) /\
      _fetchWithRetry network url options (retries - 1) (d * 2)
        ((w ++ [Fetched url options]) ++ [Waited d]) =
      (completion (network (attempts w + n)%nat),
       w ++ schedule url options (backoff d n))).
    { destruct (IH (retries - 1) (d * 2)
                   ((w ++ [Fetched url options]) ++ [Waited d])
                   ltac:(lia)) as (n & Hn & Hbefore & Hlast & Hrun).
      rewrite !attempts_app in Hbefore, Hlast, Hrun.
      change (attempts [Fetched url options]) with 1%nat in *.
      change (attempts [Waited d]) with 0%nat in *.
      exists (S n). split; [lia|]. split; [|split].
      - intros [|i] Hi; [lia|].
        replace (attempts w + S i)%nat with (attempts w + 1 + 0 + i)%nat
          by lia.
        apply Hbefore. lia.
      - intro Hlt.
        replace (attempts w + S n)%nat with (attempts w + 1 + 0 + n)%nat
          by lia.
        apply Hlast. lia.
      - rewrite Hrun, backoff_succ. cbn [schedule].
        replace (attempts w + S n)%nat with (attempts w + 1 + 0 + n)%nat
          by lia.
        rewrite <- !app_assoc. reflexivity. }
    assert (Hretry : retriable (network (attempts w)) ->
      exists n : nat,
        (n <= S m)%nat /\
        (forall i, (i < n)%nat -> retriable (network (attempts w + i)%nat)) /\
        ((n < S m)%nat -> ~ retriable (network (attempts w + n)%nat)) /\
        _fetchWithRetry network url options (retries - 1) (d * 2)
          ((w ++ [Fetched url options]) ++ [Waited d]) =
        (completion (network (attempts w + n)%nat),
         w ++ schedule url options (backoff d n))).
    { intro Hnow. destruct Hrec as (n & Hn & Hbefore & Hlast & Hrun).
      exists n. split; [lia|]. split; [|split; assumption].
      intros [|i] Hi; [rewrite Nat.add_0_r; exact Hnow | apply Hbefore; lia]. }
    destruct (network (attempts w)) as [response|error] eqn:Hnet.
    + destruct (ok response
                || negb (includes RETRY_STATUS_CODES (status response))
                || (retries <=? 0)) eqn:Htest.
      * exists 0%nat. rewrite Nat.add_0_r, Hnet.
        split; [lia|]. split; [intros i Hi; lia|].
        split; [|reflexivity].
        intros _ Hin. cbn [retriable] in Hin.
        assert (Hf : ok response
                     || negb (includes RETRY_STATUS_CODES (status response))
                     || (retries <=? 0) = false)
          by (apply return_test_false; split; assumption).
        congruence.
      * apply Hretry. apply return_test_false in Htest. apply Htest.
    + assert (Hr : (retries <=? 0) = false) by (apply Z.leb_gt; lia).
      rewrite Hr. apply Hretry. exact I.
Qed.

Lemma requests_schedule (url : string) (options : RequestInit)
    (ds : list Z) :
  requests (schedule url options ds) =
  repeat (url, options) (S (List.length ds)).
Proof.
  induction ds as [|d ds IH]; [reflexivity|].
  cbn [schedule requests List.length]. rewrite IH. reflexivity.
Qed.

Lemma backoff_length (d : Z) (n : nat) : List.length (backoff d n) = n.
Proof. unfold backoff. rewrite length_map, length_seq. reflexivity. Qed.

Lemma total_app (l l' : list Z) : total (l ++ l') = total l + total l'.
Proof.
  induction l as [|x l IH]; cbn; [reflexivity|].
  fold (total (l ++ l')). fold (total l). lia.
Qed.

(** The waits of [n] retries add up to [d * (2^n - 1)]. *)
Lemma total_backoff (n : nat) :
  forall d : Z, total (backoff d n) = d * (2 ^ Z.of_nat n - 1).
Proof.
  induction n as [|n IH]; intro d.
  - cbn. lia.
  - rewrite backoff_succ. cbn [total fold_right]. fold (total (backoff (d * 2) n)).
    rewrite IH, Nat2Z.inj_succ, Z.pow_succ_r by lia. lia.
Qed.

(** X1.  With no retry allowed ([retries] zero or negative) the call is its
    single attempt: one [fetch], no wait, and the attempt's outcome is the
    result, a response returned whatever its status or a rejection
    thrown. *)
Theorem fetchWithRetry_without_retries
    (network : nat -> FetchResult) (url : string) (options : RequestInit)
    (retries retryDelay : Z) (w : World) :
  retries <= 0 ->
  _fetchWithRetry network url options retries retryDelay w =
  (completion (network (attempts w)), w ++ [Fetched url options]).
Proof.
  intro Hle.
  destruct (fetchWithRetry_run network url options (Z.to_nat retries)
              retries retryDelay w eq_refl) as (n & Hn & _ & _ & Hrun).
  assert (n = 0%nat) as -> by lia.
  rewrite Nat.add_0_r in Hrun. exact Hrun.
Qed.

Lemma fetchWithRetry_without_retries_witness :
  _fetchWithRetry always_failing "u" example_options (-2) 500
                  [Fetched "u" example_options] =
  (completion (always_failing (attempts [Fetched "u" example_options])),
   [Fetched "u" example_options] ++ [Fetched "u" example_options]).
Proof.
  apply (fetchWithRetry_without_retries always_failing "u" example_options
           (-2) 500 [Fetched "u" example_options]).
  lia.
Defined.

(** X2.  Whatever the remote end does, a call adds to the history one
    attempt and then, at most [retries] times, a wait and one more attempt:
    the waits are the first terms of [retryDelay, 2 retryDelay,
    4 retryDelay, ...], every attempt carries the same url and options, and
    nothing already in the history is changed. *)
Theorem fetchWithRetry_history
    (network : nat -> FetchResult) (url : string) (options : RequestInit)
    (retries retryDelay : Z) (w : World) :
  exists n : nat,
    Z.of_nat n <= Z.max 0 retries /\
    snd (_fetchWithRetry network url options retries retryDelay w) =
      w ++ schedule url options (backoff retryDelay n) /\
    attempts (snd (_fetchWithRetry network url options retries retryDelay w))
      = (attempts w + n + 1)%nat /\
    waits (snd (_fetchWithRetry network url options retries retryDelay w))
      = waits w ++ backoff retryDelay n /\
    requests (snd (_fetchWithRetry network url options retries retryDelay w))
      = requests w ++ repeat (url, options) (S n).
Proof.
  destruct (fetchWithRetry_run network url options (Z.to_nat retries)
              retries retryDelay w eq_refl) as (n & Hn & _ & _ & Hrun).
  exists n. rewrite Hrun. cbn [snd].
  rewrite attempts_app, waits_app, requests_app, attempts_schedule,
    waits_schedule, requests_schedule, backoff_length.
  repeat split; lia.
Qed.

(** X3.  The call stops at the first attempt that is not a retriable
    failure: if the first [k] attempts fail retriably, [k] retries are
    allowed, and the next attempt receives a response whose status is
    outside the retry set, that response is returned after exactly [k]
    waits and [k + 1] attempts; later outcomes of the remote end are never
    asked for. *)
Theorem fetchWithRetry_stops_at_first_terminal
    (network : nat -> FetchResult) (url : string) (options : RequestInit)
    (retries retryDelay : Z) (w : World) (k : nat) (response : Response) :
  Z.of_nat k <= retries ->
  (forall i, (i < k)%nat -> retriable (network (attempts w + i)%nat)) ->
  network (attempts w + k)%nat = Resolved response ->
  ~ In (status response) RETRY_STATUS_CODES ->
  _fetchWithRetry network url options retries retryDelay w =
  (Return response, w ++ schedule url options (backoff retryDelay k)).
Proof.
  intros Hk Hfail Hnet Hout.
  destruct (fetchWithRetry_run network url options (Z.to_nat retries)
              retries retryDelay w eq_refl)
    as (n & Hn & Hbefore & Hlast & Hrun).
  assert (Hterminal : ~ retriable (network (attempts w + k)%nat))
    by (rewrite Hnet; exact Hout).
  assert (n = k) as ->.
  { destruct (Nat.lt_trichotomy n k) as [Hlt | [Heq | Hgt]].
    - exfalso. apply Hlast; [lia | apply Hfail; exact Hlt].
    - exact Heq.
    - exfalso. apply Hterminal. apply Hbefore. exact Hgt. }
  rewrite Hrun, Hnet. reflexivity.
Qed.

Lemma fetchWithRetry_stops_at_first_terminal_witness :
  _fetchWithRetry two_503_then_200 "u" example_options 3 100 [] =
  (Return (mkResponse 200 []),
   [] ++ schedule "u" example_options (backoff 100 2)).
Proof.
  apply (fetchWithRetry_stops_at_first_terminal two_503_then_200 "u"
           example_options 3 100 [] 2 (mkResponse 200 [])).
  - lia.
  - intros [|[|i]] Hi; simpl; lia.
  - reflexivity.
  - simpl. lia.
Defined.

(** X4.  When the attempt and all [N] retries fail retriably, the result is
    the outcome of the last attempt: a response with a retry status is
    returned to the caller, not turned into an error, and a rejection is
    thrown. *)
Theorem fetchWithRetry_exhausted
    (network : nat -> FetchResult) (url : string) (options : RequestInit)
    (N : nat) (retryDelay : Z) (w : World) :
  (forall i, (i <= N)%nat -> retriable (network (attempts w + i)%nat)) ->
  fst (_fetchWithRetry network url options (Z.of_nat N) retryDelay w) =
  completion (network (attempts w + N)%nat).
Proof.
  intro Hfail.
  destruct (fetchWithRetry_run network url options (Z.to_nat (Z.of_nat N))
              (Z.of_nat N) retryDelay w eq_refl)
    as (n & Hn & _ & Hlast & Hrun).
  rewrite Nat2Z.id in Hn, Hlast.
  assert (n = N) as ->.
  { destruct (Nat.eq_dec n N) as [Heq | Hne]; [exact Heq|].
    exfalso. apply Hlast; [lia | apply Hfail; lia]. }
  rewrite Hrun. reflexivity.
Qed.

Lemma fetchWithRetry_exhausted_witness :
  fst (_fetchWithRetry always_failing "u" example_options (Z.of_nat 3) 100 [])
  = completion (always_failing (attempts [] + 3)%nat).
Proof.
  apply (fetchWithRetry_exhausted always_failing "u" example_options
           3 100 []).
  intros [|i] _; simpl; [exact I | lia].
Defined.

(** X5.  With a non-negative first delay, the time a call spends waiting is
    [retryDelay * (2^n - 1)] for its [n] retries, hence at most
    [retryDelay * (2^retries - 1)]. *)
Theorem fetchWithRetry_total_wait
    (network : nat -> FetchResult) (url : string) (options : RequestInit)
    (retries retryDelay : Z) (w : World) :
  0 <= retryDelay ->
  total (waits (snd (_fetchWithRetry network url options retries
                                     retryDelay w))) =
    total (waits w) +
    retryDelay *
    (2 ^ Z.of_nat
           (attempts (snd (_fetchWithRetry network url options retries
                                           retryDelay w))
            - attempts w - 1) - 1) /\
  total (waits (snd (_fetchWithRetry network url options retries
                                     retryDelay w))) <=
    total (waits w) + retryDelay * (2 ^ Z.max 0 retries - 1).
Proof.
  intro Hd.
  destruct (fetchWithRetry_run network url options (Z.to_nat retries)
              retries retryDelay w eq_refl) as (n & Hn & _ & _ & Hrun).
  rewrite Hrun. cbn [snd].
  rewrite attempts_app, waits_app, attempts_schedule, waits_schedule,
    backoff_length, total_app, total_backoff.
  replace (attempts w + S n - attempts w - 1)%nat with n by lia.
  split; [reflexivity|].
  assert (Hpow : 2 ^ Z.of_nat n <= 2 ^ Z.max 0 retries)
    by (apply Z.pow_le_mono_r; lia).
  nia.
Qed.

Lemma fetchWithRetry_total_wait_witness :
  total (waits (snd (_fetchWithRetry two_503_then_200 "u" example_options
                                     3 100 []))) =
    total (waits []) +
    100 *
    (2 ^ Z.of_nat
           (attempts (snd (_fetchWithRetry two_503_then_200 "u"
                                           example_options 3 100 []))
            - attempts [] - 1) - 1) /\
  total (waits (snd (_fetchWithRetry two_503_then_200 "u" example_options
                                     3 100 []))) <=
    total (waits []) + 100 * (2 ^ Z.max 0 3 - 1).
Proof.
  apply (fetchWithRetry_total_wait two_503_then_200 "u" example_options
           3 100 []).
  lia.
Defined.

(** * Further properties of [_request] and of the operations *)

(** What [new Headers] makes of the two headers of [_request]. *)
Lemma Headers_new_request (value : string) :
  Headers_new [ ("Authorization", value);
                ("Content-Type", "application/json") ] =
  if validHeaderValue (normalize value)
  then Return [ ("Authorization", normalize value);
                ("Content-Type", "application/json") ]
  else Throw (TypeError "Headers: invalid name or value").
Proof.
  destruct (validHeaderValue (normalize value)) eqn:E;
    cbn [Headers_new]; rewrite E; reflexivity.
Qed.

Section RequestFacts.

Variable network : nat -> FetchResult.
Variable decode : list byte -> string.
Variable parse : string -> Completion Json.
Variable stringify : JsValue -> option string.
Variable this : MistralClient.

(** [_request] is the construction of the headers, then the transport on
    the url and options it builds, then the parsing of the body. *)
Lemma request_as_transport (method path : string) (request : JsValue)
    (retries : option Z) (w : World) :
  _request network decode parse stringify this method path request retries w
  = match Headers_new (request_headers this) with
    | Throw e => (Throw e, w)
    | Return hs =>
        (parsed decode parse
           (fst (_fetchWithRetry network (request_url this path)
                   (request_options stringify hs method request)
                   (or_default 3 retries) 500 w)),
         snd (_fetchWithRetry network (request_url this path)
                (request_options stringify hs method request)
                (or_default 3 retries) 500 w))
    end.
Proof.
  unfold _request, _fetchWithRetry_call, request_headers, request_url,
    request_options.
  cbv zeta. cbn [or_default].
  destruct (Headers_new
              [("Authorization", ("Bearer " ++ template (apiKey this))%string);
               ("Content-Type", "application/json")]) as [hs|e];
    [|reflexivity].
  match goal with
  | |- context [_fetchWithRetry ?n ?u ?o ?r ?d ?w0] =>
      destruct (_fetchWithRetry n u o r d w0) as [[response|e] w']
  end; reflexivity.
Qed.

Lemma request_default_run (method path : string) (request : JsValue)
    (w : World) :
  client_run stringify this (request_url this path) method request w
             (snd (_request network decode parse stringify this method path
                            request None w)).
Proof.
  unfold client_run. rewrite request_as_transport.
  destruct (Headers_new (request_headers this)) as [hs|e]; [|reflexivity].
  cbn [snd or_default].
  destruct (fetchWithRetry_run network (request_url this path)
              (request_options stringify hs method request)
              (Z.to_nat 3) 3 500 w eq_refl) as (n & Hn & _ & _ & Hrun).
  exists n. rewrite Hrun. cbn [snd].
  rewrite attempts_app, waits_app, attempts_schedule, waits_schedule,
    backoff_length, total_app, total_backoff.
  change (Z.to_nat 3) with 3%nat in Hn.
  repeat split; lia.
Qed.

End RequestFacts.

(** A key with a newline inside: [new Headers] throws and nothing is
    sent. *)
Example request_with_bad_key_sends_nothing :
  _request always_404 Reference.decode Reference.JSON_parse
           Reference.JSON_stringify client_with_bad_key
           "get" "v1/models" VUndefined None [] =
  (Throw (TypeError "Headers: invalid name or value"), []).
Proof. reflexivity. Qed.

(** X6.  A call of [_request] first builds its headers; when [new Headers]
    throws, the call throws that error and sends nothing.  Otherwise it
    ends after [n] retries, [n] at most the retry count given (3 when none
    is), on an attempt whose outcome decides: a rejection is thrown as it
    is; a response has its body parsed as JSON and returned whatever its
    status.  The attempts all carry the url [<endpoint>/<path>] and the same
    options, and the waits start at 500 ms whatever the caller passes. *)
Theorem request_run
    (network : nat -> FetchResult) (decode : list byte -> string)
    (parse : string -> Completion Json) (stringify : JsValue -> option string)
    (this : MistralClient) (method path : string) (request : JsValue)
    (retries : option Z) (w : World) :
  match Headers_new (request_headers this) with
  | Throw e =>
      _request network decode parse stringify this method path request
               retries w = (Throw e, w)
  | Return hs =>
      exists n : nat,
        Z.of_nat n <= Z.max 0 (or_default 3 retries) /\
        _request network decode parse stringify this method path request
                 retries w
        = (parsed decode parse (completion (network (attempts w + n)%nat)),
           w ++ schedule (request_url this path)
                         (request_options stringify hs method request)
                         (backoff 500 n))
  end.
Proof.
  rewrite request_as_transport.
  destruct (Headers_new (request_headers this)) as [hs|e]; [|reflexivity].
  destruct (fetchWithRetry_run network (request_url this path)
              (request_options stringify hs method request)
              (Z.to_nat (or_default 3 retries)) (or_default 3 retries) 500 w
              eq_refl) as (n & Hn & _ & _ & Hrun).
  exists n. rewrite Hrun. split; [lia | reflexivity].
Qed.

(** X7.  Each operation of the client leaves the history as it is when
    [new Headers] refuses the client's key; otherwise it sends one request
    to its own path, at most four times, and waits 500 ms, then 1000 ms,
    then 2000 ms between the attempts: [listModels] a [get] of [v1/models]
    with the serialisation of [undefined] as body, [chat] and [chatStream]
    a [post] of [v1/chat/completions], [embeddings] a [post] of
    [v1/embeddings] with the object of its two arguments. *)
Theorem operations_default_run
    (network : nat -> FetchResult) (decode : list byte -> string)
    (parse : string -> Completion Json) (stringify : JsValue -> option string)
    (this : MistralClient) (p : ChatParams) (model input : JsValue)
    (w : World) :
  client_run stringify this (request_url this "v1/models") "get" VUndefined
             w (snd (listModels network decode parse stringify this w)) /\
  client_run stringify this (request_url this "v1/chat/completions") "post"
             (chat_request p)
             w (snd (chat network decode parse stringify this p w)) /\
  client_run stringify this (request_url this "v1/chat/completions") "post"
             (chatStream_request p)
             w (snd (chatStream network decode parse stringify this p w)) /\
  client_run stringify this (request_url this "v1/embeddings") "post"
             (VObject [("model", model); ("input", input)])
             w (snd (embeddings network decode parse stringify this
                                model input w)).
Proof.
  split; [apply request_default_run|].
  split; [apply request_default_run|].
  split; [|apply request_default_run].
  unfold chatStream.
  pose proof (request_default_run network decode parse stringify this
                "post" "v1/chat/completions" (chatStream_request p) w)
    as Hrun.
  destruct (_request network decode parse stringify this "post"
              "v1/chat/completions" (chatStream_request p) None w)
    as [response w'].
  exact Hrun.
Qed.

(** X8.  When [new Headers] accepts the client's headers and the first
    response has a status outside the retry set, an error status such as
    404 included, [_request] returns the parse of the body after that single
    attempt: the status never becomes an error, and the only error then is
    the parser's when the body is not JSON. *)
Theorem request_returns_body_whatever_the_status
    (network : nat -> FetchResult) (decode : list byte -> string)
    (parse : string -> Completion Json) (stringify : JsValue -> option string)
    (this : MistralClient) (method path : string) (request : JsValue)
    (retries : option Z) (w : World) (response : Response)
    (hs : list (string * string)) :
  Headers_new (request_headers this) = Return hs ->
  network (attempts w) = Resolved response ->
  ~ In (status response) RETRY_STATUS_CODES ->
  _request network decode parse stringify this method path request retries w
  = (parse (decode (List.concat (body response))),
     w ++ [Fetched (request_url this path)
                   (request_options stringify hs method request)]).
Proof.
  intros Hheaders Hnet Hout.
  rewrite request_as_transport, Hheaders.
  destruct (fetchWithRetry_run network (request_url this path)
              (request_options stringify hs method request)
              (Z.to_nat (or_default 3 retries)) (or_default 3 retries) 500 w
              eq_refl) as (n & Hn & Hbefore & _ & Hrun).
  assert (n = 0%nat) as ->.
  { destruct n as [|n]; [reflexivity|]. exfalso.
    specialize (Hbefore 0%nat ltac:(lia)).
    rewrite Nat.add_0_r, Hnet in Hbefore. exact (Hout Hbefore). }
  rewrite Hrun, Nat.add_0_r, Hnet. reflexivity.
Qed.

Lemma request_returns_body_whatever_the_status_witness :
  _request (fun _ => Resolved not_found) Reference.decode
           Reference.JSON_parse Reference.JSON_stringify example_client
           "get" "v1/models" VUndefined None [] =
  (Reference.JSON_parse (Reference.decode (List.concat (body not_found))),
   [] ++ [Fetched (request_url example_client "v1/models")
                  (request_options Reference.JSON_stringify
                     [ ("Authorization", "Bearer key");
                       ("Content-Type", "application/json") ]
                     "get" VUndefined)]).
Proof.
  apply (request_returns_body_whatever_the_status
           (fun _ => Resolved not_found) Reference.decode
           Reference.JSON_parse Reference.JSON_stringify example_client
           "get" "v1/models" VUndefined None [] not_found).
  - reflexivity.
  - reflexivity.
  - simpl. lia.
Defined.

(** X9.  The [Authorization] value of a client is [Bearer <key>], where the
    key is the constructor's argument if given, else the environment's
    value, else the text [undefined] (a missing key is not an error), and
    the endpoint is the constructor's argument if given, else [ENDPOINT].
    When that value, without the HTTP white space around it, holds no NUL,
    LF or CR, every call of [_request] sends at least one request, each to
    [<endpoint>/<path>] with that normalized value and
    [Content-Type: application/json]; when it does, the call throws a type
    error and sends nothing. *)
Theorem requests_carry_key_and_endpoint
    (network : nat -> FetchResult) (decode : list byte -> string)
    (parse : string -> Completion Json) (stringify : JsValue -> option string)
    (env key base : option string) (method path : string)
    (request : JsValue) (retries : option Z) (w : World) :
  let value :=
    ("Bearer " ++
     match key, env with
     | Some k, _ => k
     | None, Some v => v
     | None, None => "undefined"
     end)%string in
  let url :=
    (match base with Some b => b | None => ENDPOINT end ++ "/" ++ path)%string
  in
  if validHeaderValue (normalize value) then
    exists k : nat,
      requests (snd (_request network decode parse stringify
                              (constructor env key base) method path request
                              retries w)) =
      requests w ++
      repeat (url,
              {| method := method;
                 headers := [ ("Authorization", normalize value);
                              ("Content-Type", "application/json") ];
                 payload := stringify request |}) (S k)
  else
    _request network decode parse stringify (constructor env key base)
             method path request retries w =
    (Throw (TypeError "Headers: invalid name or value"), w).
Proof.
  cbv zeta.
  pose proof (request_requests network decode parse stringify
                (constructor env key base) method path request retries w)
    as Hreq.
  unfold request_headers in Hreq. rewrite Headers_new_request in Hreq.
  assert (Hkey : template (apiKey (constructor env key base)) =
                 match key, env with
                 | Some k, _ => k
                 | None, Some v => v
                 | None, None => "undefined"
                 end)
    by (destruct key, env; reflexivity).
  rewrite Hkey in Hreq.
  assert (Hurl : request_url (constructor env key base) path =
                 (match base with Some b => b | None => ENDPOINT end
                  ++ "/" ++ path)%string)
    by (destruct base; reflexivity).
  rewrite Hurl in Hreq.
  destruct (validHeaderValue _); exact Hreq.
Qed.

Lemma nullish_undefined_iff (v : JsValue) :
  v ?? VUndefined = VUndefined <-> v = VUndefined \/ v = VJson JNull.
Proof.
  split.
  - destruct v as [|[]| | |]; cbn; intro H;
      try discriminate H; auto.
  - intros [-> | ->]; reflexivity.
Qed.

Lemma nullish_never_null (v : JsValue) : v ?? VUndefined <> VJson JNull.
Proof. destruct v as [|[]| | |]; cbn; discriminate. Qed.

(** X10.  In the object [_makeChatCompletionRequest] builds, each of
    [temperature], [max_tokens], [top_p], [random_seed], [stream] and
    [safe_prompt] is [undefined] exactly when its argument is [undefined] or
    [null], and is never [null]: a [null] argument is left out, not sent.
    [model] and [messages] are copied as they are, [null] included. *)
Theorem makeChatCompletionRequest_drops_null
    (model messages temperature maxTokens topP randomSeed stream safeMode
     : JsValue) :
  let req := _makeChatCompletionRequest model messages temperature maxTokens
                                        topP randomSeed stream safeMode in
  get "model" req = model /\
  get "messages" req = messages /\
  (get "temperature" req = VUndefined <->
   temperature = VUndefined \/ temperature = VJson JNull) /\
  (get "max_tokens" req = VUndefined <->
   maxTokens = VUndefined \/ maxTokens = VJson JNull) /\
  (get "top_p" req = VUndefined <->
   topP = VUndefined \/ topP = VJson JNull) /\
  (get "random_seed" req = VUndefined <->
   randomSeed = VUndefined \/ randomSeed = VJson JNull) /\
  (get "stream" req = VUndefined <->
   stream = VUndefined \/ stream = VJson JNull) /\
  (get "safe_prompt" req = VUndefined <->
   safeMode = VUndefined \/ safeMode = VJson JNull) /\
  get "temperature" req <> VJson JNull /\
  get "max_tokens" req <> VJson JNull /\
  get "top_p" req <> VJson JNull /\
  get "random_seed" req <> VJson JNull /\
  get "stream" req <> VJson JNull /\
  get "safe_prompt" req <> VJson JNull.
Proof.
  cbv zeta. cbn [get _makeChatCompletionRequest lookup String.eqb Ascii.eqb
                 Bool.eqb].
  repeat split;
    try (apply nullish_undefined_iff);
    try (apply nullish_never_null);
    try (intros [-> | ->]; reflexivity).
Qed.

(** * Further properties of the stream decoder *)

Section DecoderRun.

Variable decode : list byte -> string.
Variable parse : string -> Completion Json.




Lemma streamLines_app (cs1 cs2 : list (list byte)) :
  streamLines decode (cs1 ++ cs2) =
  streamLines decode cs1 ++ streamLines decode cs2.
Proof. unfold streamLines. apply flat_map_app. Qed.

End DecoderRun.






(** X13.  Decoding goes chunk by chunk and keeps nothing from one chunk to
    the next: a stream of chunks followed by more chunks gives the events of
    the first part followed by those of the second, unless the first part
    fails, in which case the rest is not decoded.  The events of a stream
    are a prefix of the events of any longer stream. *)
Theorem decodeStream_app
    (decode : list byte -> string) (parse : string -> Completion Json)
    (cs1 cs2 : list (list byte)) :
  decodeStream decode parse (cs1 ++ cs2) =
    match decodeStream decode parse cs1 with
    | (evs, Throw e) => (evs, Throw e)
    | (evs, Return _) =>
        (evs ++ fst (decodeStream decode parse cs2),
         snd (decodeStream decode parse cs2))
    end /\
  exists rest,
    fst (decodeStream decode parse (cs1 ++ cs2)) =
    fst (decodeStream decode parse cs1) ++ rest.
Proof.
  assert (Hbind : decodeStream decode parse (cs1 ++ cs2) =
                  (decodeStream decode parse cs1 ;;
                   decodeStream decode parse cs2)).
  { rewrite !decodeStream_lines, streamLines_app. unfold decodeLines.
    apply for_of_app. }
  rewrite Hbind. unfold gbind.
  destruct (decodeStream decode parse cs1) as [evs [[]|e]].
  - destruct (decodeStream decode parse cs2) as [evs2 r2]. cbn [fst snd].
    split; [reflexivity|]. exists evs2. reflexivity.
  - split; [reflexivity|]. exists []. cbn [fst]. rewrite app_nil_r.
    reflexivity.
Qed.

Section LineFacts.

Lemma trimEnd_snoc (c : ascii) (s : string) :
  isWhiteSpace c = true ->
  trimEnd (s ++ String c EmptyString) = trimEnd s.
Proof.
  intro Hc. induction s as [|a s IH]; cbn [String.append trimEnd].
  - rewrite Hc. reflexivity.
  - rewrite IH. reflexivity.
Qed.

Lemma trimEnd_substring_snoc (c : ascii) (s : string) :
  isWhiteSpace c = true ->
  forall n : nat,
    trimEnd (substring n (s ++ String c EmptyString)) =
    trimEnd (substring n s).
Proof.
  intro Hc. induction s as [|a s IH]; intros [|n].
  - cbn. rewrite Hc. reflexivity.
  - cbn [String.append substring]. destruct n; reflexivity.
  - cbn [substring]. apply trimEnd_snoc. exact Hc.
  - cbn [String.append substring]. apply IH.
Qed.

Lemma prefix_snoc (c : ascii) (s : string) :
  forall p : string,
    (forall x, In x (list_ascii_of_string p) -> x <> c) ->
    String.prefix p (s ++ String c EmptyString) = String.prefix p s.
Proof.
  induction s as [|b s IH]; intros [|a p] Hp; try reflexivity.
  - cbn [String.append String.prefix].
    destruct (ascii_dec a c) as [E|_]; [|reflexivity].
    exfalso. apply (Hp a); [left; reflexivity | exact E].
  - cbn [String.append String.prefix].
    destruct (ascii_dec a b); [|reflexivity].
    apply IH. intros x Hx. apply Hp. right. exact Hx.
Qed.

Lemma white_space_not_in_prefix (c : ascii) :
  isWhiteSpace c = true ->
  forall x, In x (list_ascii_of_string "data:") -> x <> c.
Proof.
  intros Hc x Hx Heq. subst c. cbn in Hx.
  destruct Hx as [<-|[<-|[<-|[<-|[<-|[]]]]]]; vm_compute in Hc;
    discriminate Hc.
Qed.

Lemma append_nil_r (s : string) : (s ++ EmptyString)%string = s.
Proof. induction s as [|a s IH]; cbn; [|rewrite IH]; reflexivity. Qed.

(** The lines of a text made of two pieces: the last line of the first
    piece and the first line of the second are one line. *)
Lemma split_app (t u : string) :
  split (t ++ u) =
  removelast (split t) ++ (lastLine t ++ firstLine u)%string :: tl (split u).
Proof.
  unfold lastLine, firstLine.
  induction t as [|c t IH].
  - cbn. destruct (split u) as [|l ls] eqn:E;
      [exfalso; exact (split_nonempty u E) | reflexivity].
  - cbn [String.append split]. rewrite IH.
    destruct (split t) as [|l ls] eqn:E;
      [exfalso; exact (split_nonempty t E)|].
    destruct (Ascii.eqb c LF).
    + reflexivity.
    + destruct ls as [|l2 ls2]; reflexivity.
Qed.

Lemma split_last (t : string) :
  split t = removelast (split t) ++ [lastLine t].
Proof. apply app_removelast_last. apply split_nonempty. Qed.

Lemma split_first (t : string) : split t = firstLine t :: tl (split t).
Proof.
  unfold firstLine. destruct (split t) eqn:E;
    [exfalso; exact (split_nonempty t E) | reflexivity].
Qed.

End LineFacts.

(** Two chunks decode as their concatenation as soon as the two pieces the
    cut separates decode, one after the other, as the line they make. *)
Lemma decodeStream_two_chunks
    (decode : list byte -> string) (parse : string -> Completion Json)
    (first second : list byte) :
  decode (first ++ second) = (decode first ++ decode second)%string ->
  (chunkLine_body parse (lastLine (decode first)) ;;
   chunkLine_body parse (firstLine (decode second))) =
  chunkLine_body parse
    (lastLine (decode first) ++ firstLine (decode second)) ->
  decodeStream decode parse [first; second] =
  decodeStream decode parse [first ++ second].
Proof.
  intros Hwhole Hpieces.
  rewrite !decodeStream_lines. unfold streamLines. cbn [flat_map].
  rewrite Hwhole, split_app, !app_nil_r.
  rewrite (split_last (decode first)) at 1.
  rewrite (split_first (decode second)) at 1.
  unfold decodeLines. rewrite <- app_assoc. cbn [app].
  rewrite !for_of_app. cbn [for_of].
  rewrite <- Hpieces, gbind_assoc. reflexivity.
Qed.

(** X14.  White space at the end of a line, a carriage return included,
    changes nothing: the line is a frame or not as without it, and its
    payload is the same.  So lines ended by CR LF decode as lines ended by
    LF. *)
Theorem trailing_white_space_is_ignored
    (parse : string -> Completion Json) (c : ascii) :
  isWhiteSpace c = true ->
  (forall chunkLine,
      chunkLine_body parse (chunkLine ++ String c EmptyString) =
      chunkLine_body parse chunkLine) /\
  (forall chunkLines,
      decodeLines parse
        (map (fun l => (l ++ String c EmptyString)%string) chunkLines) =
      decodeLines parse chunkLines).
Proof.
  intro Hc.
  assert (Hline : forall chunkLine,
             chunkLine_body parse (chunkLine ++ String c EmptyString) =
             chunkLine_body parse chunkLine).
  { intro l. unfold chunkLine_body, startsWith, trim.
    rewrite (prefix_snoc c l "data:" (white_space_not_in_prefix c Hc)).
    rewrite (trimEnd_substring_snoc c l Hc 6). reflexivity. }
  split; [exact Hline|].
  intro ls. unfold decodeLines.
  induction ls as [|l ls IH]; [reflexivity|].
  cbn [map for_of]. rewrite Hline, IH. reflexivity.
Qed.

Lemma trailing_white_space_is_ignored_witness :
  chunkLine_body Reference.JSON_parse
                 (dq "data: {'a':1}" ++ String CR EmptyString) =
  chunkLine_body Reference.JSON_parse (dq "data: {'a':1}") /\
  decodeLines Reference.JSON_parse
    (map (fun l => (l ++ String CR EmptyString)%string)
         [dq "data: {'a':1}"; EmptyString; "data: [DONE]"]) =
  decodeLines Reference.JSON_parse
    [dq "data: {'a':1}"; EmptyString; "data: [DONE]"].
Proof.
  split.
  - apply (proj1 (trailing_white_space_is_ignored Reference.JSON_parse CR
                    eq_refl)).
  - apply (proj2 (trailing_white_space_is_ignored Reference.JSON_parse CR
                    eq_refl)).
Defined.

(** X15.  A cut immediately before a newline is harmless: when the second
    chunk's text begins with a newline, and the text decoder maps the two
    chunks to the two halves of the text of the whole, two chunks decode to
    what the single chunk decodes to. *)
Theorem cut_before_a_newline_keeps_the_events
    (decode : list byte -> string) (parse : string -> Completion Json)
    (first second : list byte) (u : string) :
  decode second = String LF u ->
  decode (first ++ second) = (decode first ++ decode second)%string ->
  decodeStream decode parse [first; second] =
  decodeStream decode parse [first ++ second].
Proof.
  intros Hsecond Hwhole.
  apply decodeStream_two_chunks; [exact Hwhole|].
  assert (Hy : firstLine (decode second) = EmptyString)
    by (rewrite Hsecond; reflexivity).
  rewrite Hy, append_nil_r.
  rewrite (chunkLine_body_not_data parse EmptyString) by reflexivity.
  apply gbind_gret_r.
Qed.

Lemma cut_before_a_newline_keeps_the_events_witness :
  decodeStream Reference.decode Reference.JSON_parse
               [frame_without_newline; newline_then_done] =
  decodeStream Reference.decode Reference.JSON_parse
               [frame_without_newline ++ newline_then_done].
Proof.
  apply (cut_before_a_newline_keeps_the_events
           Reference.decode Reference.JSON_parse
           frame_without_newline newline_then_done
           (unlines ["data: [DONE]"])); reflexivity.
Defined.

(** X16.  A cut inside a line is harmless when neither piece nor the line
    they make starts with [data:] (a comment or blank line cut in two):
    given that the text decoder maps the two chunks to the two halves of the
    text of the whole, two chunks decode to what the single chunk decodes
    to. *)
Theorem cut_inside_another_line_keeps_the_events
    (decode : list byte -> string) (parse : string -> Completion Json)
    (first second : list byte) :
  decode (first ++ second) = (decode first ++ decode second)%string ->
  startsWith (lastLine (decode first)) "data:" = false ->
  startsWith (firstLine (decode second)) "data:" = false ->
  startsWith (lastLine (decode first) ++ firstLine (decode second)) "data:"
    = false ->
  decodeStream decode parse [first; second] =
  decodeStream decode parse [first ++ second].
Proof.
  intros Hwhole Hx Hy Hxy.
  apply decodeStream_two_chunks; [exact Hwhole|].
  rewrite !chunkLine_body_not_data by assumption.
  reflexivity.
Qed.

Lemma cut_inside_another_line_keeps_the_events_witness :
  decodeStream Reference.decode Reference.JSON_parse
               [comment_head; comment_tail] =
  decodeStream Reference.decode Reference.JSON_parse
               [comment_head ++ comment_tail].
Proof.
  apply (cut_inside_another_line_keeps_the_events
           Reference.decode Reference.JSON_parse comment_head comment_tail);
    reflexivity.
Defined.

(** X17.  [chatStream] never yields an event.  It throws what [_request]
    throws; when [_request] returns a JSON value it throws a type error,
    because the value is not iterable or its first item is not a buffer,
    unless the value is the empty array or the empty string, the only cases
    in which it ends normally. *)
Theorem chatStream_outcome
    (network : nat -> FetchResult) (decode : list byte -> string)
    (parse : string -> Completion Json) (stringify : JsValue -> option string)
    (this : MistralClient) (p : ChatParams) (w : World) :
  fst (chatStream network decode parse stringify this p w) =
  match fst (_request network decode parse stringify this "post"
                      "v1/chat/completions" (chatStream_request p) None w)
  with
  | Throw e => ([], Throw e)
  | Return (JArr []) => ([], Return tt)
  | Return (JStr EmptyString) => ([], Return tt)
  | Return (JArr (_ :: _)) =>
      ([], Throw (TypeError "decode: not a BufferSource"))
  | Return (JStr (String _ _)) =>
      ([], Throw (TypeError "decode: not a BufferSource"))
  | Return _ => ([], Throw (TypeError "not iterable"))
  end.
Proof.
  unfold chatStream.
  destruct (_request network decode parse stringify this "post"
              "v1/chat/completions" (chatStream_request p) None w)
    as [[j|e] w']; cbn [fst]; [|reflexivity].
  rewrite gbind_await_return. unfold chatStream_loop.
  destruct j as [|b|q|s|items|fields]; try reflexivity; cbn [iterate];
    rewrite gbind_await_return.
  - destruct s as [|c s]; reflexivity.
  - destruct items as [|x items]; reflexivity.
Qed.
